(** * Build-time hooks of the site generator: [onCreateNode] and [createPages]

    A shallow embedding of [gatsby-node.js].  The two lifecycle hooks only
    talk to the host through callbacks ([createNode], [createNodeField],
    [createParentChildLink], [createPage], [console.warn], [console.error]);
    they never read back what they wrote.  A run of a hook is therefore
    modelled by the ordered list of callback invocations it performs together
    with the JavaScript completion it ends in.  The host collaborators that the
    hooks read from ([getNode], [createNodeId], [createContentDigest],
    [loadNodeContent], [svgo.optimize], [graphql]) are section variables. *)

From Stdlib Require Import List String Ascii Bool Arith ZArith Lia.
From Stdlib Require Import Numbers.DecimalString Numbers.DecimalNat.
Import ListNotations.

Set Implicit Arguments.
Open Scope string_scope.
Open Scope list_scope.

Infix "^^" := String.append (right associativity, at level 60).

(* ------------------------------------------------------------------ *)
(** ** JavaScript values *)

Module Js.

(** JSON-shaped values.  An array is kept apart from an object because
    [Object.entries] names its elements by their decimal index. *)
#[warnings="-register-all"] Inductive JsValue : Type :=
| JUndefined
| JNull
| JBool (b : bool)
| JNum (z : Z)
| JStr (s : string)
| JArr (xs : list JsValue)
| JObj (es : list (string * JsValue)).

(** [typeof v] *)
Definition typeof (v : JsValue) : string :=
  match v with
  | JUndefined => "undefined"
  | JNull => "object"
  | JBool _ => "boolean"
  | JNum _ => "number"
  | JStr _ => "string"
  | JArr _ => "object"
  | JObj _ => "object"
  end.

(** [!!v] : the value is truthy. *)
Definition truthy (v : JsValue) : bool :=
  match v with
  | JUndefined => false
  | JNull => false
  | JBool b => b
  | JNum z => negb (Z.eqb z 0)
  | JStr s => negb (String.eqb s "")
  | JArr _ => true
  | JObj _ => true
  end.

(** [key.startsWith(p)] *)
Definition startsWith (key p : string) : bool := String.prefix p key.

(** [String(n)] for a non-negative integer. *)
Definition String_of_nat (n : nat) : string :=
  NilEmpty.string_of_uint (Nat.to_uint n).

(** [xs.includes(x)] on an array of strings. *)
Definition includes (xs : list string) (x : string) : bool :=
  existsb (String.eqb x) xs.

End Js.
Import Js.

(* ------------------------------------------------------------------ *)
(** ** Objects handed to the host *)

(** The object literal [mdNode] of [createFieldsForObject]. *)
Record MdNode : Type := mkMdNode {
  md_id : string;
  md_key : string;
  md_children : list string;
  md_parent : string;
  md_type : string;
  md_mediaType : string;
  md_content : string;
  md_contentDigest : string
}.

(** The object literal [svgNode]. *)
Record SvgNode : Type := mkSvgNode {
  svg_id : string;
  svg_children : list string;
  svg_rawSvg : string;
  svg_parent : string;
  svg_type : string;
  svg_contentDigest : string
}.

Inductive NewNode : Type :=
| OfMd (n : MdNode)
| OfSvg (n : SvgNode).

Definition newNodeId (n : NewNode) : string :=
  match n with OfMd m => md_id m | OfSvg s => svg_id s end.

Definition newNodeType (n : NewNode) : string :=
  match n with OfMd m => md_type m | OfSvg s => svg_type s end.

Definition newNodeDigest (n : NewNode) : string :=
  match n with OfMd m => md_contentDigest m | OfSvg s => svg_contentDigest s end.

(** [path.resolve("src/templates/...")]: the four page templates. *)
Inductive Template : Type :=
| StaticPageTemplate
| MediaListTemplate
| MediaPageTemplate
| NewsListTemplate.

(** The argument of [createPage]. *)
Record Page : Type := mkPage {
  page_path : string;
  page_component : Template;
  page_context : list (string * JsValue)
}.

(** One callback invocation. *)
Inductive Event : Type :=
| ConsoleError (args : list string)
| ConsoleWarn (args : list string)
| CreateNodeField (nodeId name value : string)
| CreateNode (n : NewNode)
| CreateParentChildLink (parentId childId : string)
| CreatePage (p : Page).

(* ------------------------------------------------------------------ *)
(** ** Completions and the hook monad *)

Module Hook.

(** How a JavaScript statement list ends. *)
Inductive Completion (A : Type) : Type :=
| Normal (a : A)
| Continue
| Return
| Throw (e : string).
Arguments Normal {A} a.
Arguments Continue {A}.
Arguments Return {A}.
Arguments Throw {A} e.

(** Callback invocations so far, and the completion. *)
Definition M (A : Type) : Type := (list Event * Completion A)%type.

Definition ret {A} (a : A) : M A := ([], Normal a).

Definition bind {A B} (m : M A) (k : A -> M B) : M B :=
  match m with
  | (t, Normal a) => let (t', c) := k a in (t ++ t', c)
  | (t, Continue) => (t, Continue)
  | (t, Return) => (t, Return)
  | (t, Throw e) => (t, Throw e)
  end.

Definition emit (e : Event) : M unit := ([e], Normal tt).
Definition continue_ {A} : M A := ([], Continue).
Definition return_ {A} : M A := ([], Return).
Definition throw {A} (e : string) : M A := ([], Throw e).

(** The boundary of a function body: [return] ends the call normally. *)
Definition asFunction (body : M unit) : M unit :=
  match body with
  | (t, Return) => (t, Normal tt)
  | other => other
  end.

(** One iteration of a loop body: [continue] ends the iteration normally. *)
Definition iteration (body : M unit) : M unit :=
  match body with
  | (t, Continue) => (t, Normal tt)
  | other => other
  end.

(** [if (c) { s }] *)
Definition when (c : bool) (s : M unit) : M unit :=
  if c then s else ret tt.

Definition trace {A} (m : M A) : list Event := fst m.
Definition completion {A} (m : M A) : Completion A := snd m.

End Hook.
Import Hook.

Notation "x <- m ;; k" := (bind m (fun x => k))
  (at level 61, m at next level, right associativity).
Notation "m ;; k" := (bind m (fun _ => k))
  (at level 61, right associativity).

Section Loops.
Context {A : Type}.

(** [xs.forEach(f)] *)
Section ForEach.
Variable f : A -> M unit.
Fixpoint forEach (xs : list A) : M unit :=
  match xs with
  | [] => ret tt
  | x :: r => f x ;; forEach r
  end.
End ForEach.

(** [forEach] over the entries of an array, whose keys are the indices
    from [i] on. *)
Section ForEachIndexed.
Variable f : nat -> A -> M unit.
Fixpoint forEachFrom (i : nat) (xs : list A) : M unit :=
  match xs with
  | [] => ret tt
  | x :: r => f i x ;; forEachFrom (S i) r
  end.
End ForEachIndexed.
End Loops.

(** [for (let i = lo; i < lo + count; i++) body(i)] *)
Fixpoint forLoop (body : nat -> M unit) (lo count : nat) : M unit :=
  match count with
  | O => ret tt
  | S c => iteration (body lo) ;; forLoop body (S lo) c
  end.

(** [for (let x of xs) body(x)] *)
Fixpoint forOf {A} (body : A -> M unit) (xs : list A) : M unit :=
  match xs with
  | [] => ret tt
  | x :: r => iteration (body x) ;; forOf body r
  end.

(* ------------------------------------------------------------------ *)
(** ** Nodes of the content graph *)

Record Internal : Type := mkInternal {
  internal_type : string;
  internal_mediaType : option string;
  (** the other own properties of [node.internal] *)
  internal_rest : list (string * JsValue)
}.

Record Node : Type := mkNode {
  node_id : string;
  node_parent : option string;
  node_internal : Internal;
  (** the other own properties ([children], [fields], the JSON payload) *)
  node_rest : list (string * JsValue)
}.

(** [Object.entries(node)] *)
Definition nodeEntries (node : Node) : list (string * JsValue) :=
  ("id", JStr (node_id node))
  :: ("parent", match node_parent node with Some p => JStr p | None => JNull end)
  :: ("internal",
      JObj (("type", JStr (internal_type (node_internal node)))
            :: match internal_mediaType (node_internal node) with
               | Some m => [("mediaType", JStr m)]
               | None => []
               end
            ++ internal_rest (node_internal node)))
  :: node_rest node.

(** A file node as far as the hook reads it: [fileNode.name]. *)
Record FileNode : Type := mkFileNode { file_name : string }.

Definition typesToSlug : list string :=
  ["MarkdownRemark"; "PagesJson"; "ContentJson"].

(* ------------------------------------------------------------------ *)
(** ** [onCreateNode] *)

Section OnCreateNode.

Variable createNodeId : string -> string.
Variable createContentDigest : string -> string.

Definition createNodeField (node : Node) (name value : string) : M unit :=
  emit (CreateNodeField (node_id node) name value).
Definition createNode (n : NewNode) : M unit := emit (CreateNode n).
Definition createParentChildLink (parent : Node) (child : NewNode) : M unit :=
  emit (CreateParentChildLink (node_id parent) (newNodeId child)).
Definition console_warn (args : list string) : M unit := emit (ConsoleWarn args).
Definition console_error (args : list string) : M unit := emit (ConsoleError args).

Section PagesJson.
Variable node : Node.

(** The callback of [Object.entries(obj).forEach] for one [[key, value]]
    pair; [recur] is [createFieldsForObject(value, _)]. *)
Definition visitEntry (path key : string) (value : JsValue)
           (recur : string -> M unit) : M unit :=
  let newPath := path ^^ key in
  if String.eqb (typeof value) "string" && startsWith key "md" then
    let id := createNodeId newPath in
    let mdNode := OfMd {|
      md_id := id;
      md_key := key;
      md_children := [];
      md_parent := node_id node;
      md_type := "JsonMarkdownField";
      md_mediaType := "text/markdown";
      md_content := match value with JStr s => s | _ => "" end;
      md_contentDigest :=
        createContentDigest (match value with JStr s => s | _ => "" end)
    |} in
    createNode mdNode ;;
    createParentChildLink node mdNode
  else if truthy value && String.eqb (typeof value) "object" then
    recur (newPath ^^ "_")
  else ret tt.

(** [createFieldsForObject(obj, path)].  It is entered with the node and
    re-entered with truthy values of type ["object"] only; the entries of
    a string are single characters under index keys, none of which
    starts with the marker. *)
Fixpoint createFieldsForObject (obj : JsValue) (path : string) {struct obj}
  : M unit :=
  match obj with
  | JObj es =>
      forEach (fun kv : string * JsValue =>
                 let (key, value) := kv in
                 visitEntry path key value (createFieldsForObject value))
              es
  | JArr xs =>
      forEachFrom (fun i value =>
                     visitEntry path (String_of_nat i) value
                                (createFieldsForObject value))
                  0 xs
  | JUndefined | JNull => throw "TypeError"
  | JBool _ | JNum _ | JStr _ => ret tt
  end.
End PagesJson.

End OnCreateNode.

(** What the [catch] block gets when a promise of the [try] block rejects,
    by what reading [error.message] does with it. *)
Inductive Rejection : Type :=
| Nullish                        (** [undefined] or [null]: the read throws *)
| WithMessage (message : string) (** an object with that [message], as an [Error] *)
| WithoutMessage.                (** any other value, as a string: [undefined] *)

(** [error.message]; [None] is [undefined]. *)
Definition errorMessage (error : Rejection) : M (option string) :=
  match error with
  | Nullish => throw "TypeError"
  | WithMessage message => ret (Some message)
  | WithoutMessage => ret None
  end.

(** How [console.error] shows a message that may be [undefined]. *)
Definition shown (message : option string) : string :=
  match message with
  | Some text => text
  | None => "undefined"
  end.

(** [await p] inside a [try] block: the block goes on with the value, or
    ends with the rejection. *)
Definition awaited {A B} (p : Rejection + A) (k : A -> M (Rejection + B))
  : M (Rejection + B) :=
  match p with
  | inl error => ret (inl error)
  | inr a => k a
  end.

(** [try { body } catch (error) { handler(error) }]; an error that the body
    throws by itself is an object with its message. *)
Definition tryCatchAny {A} (body : M (Rejection + A)) (handler : Rejection -> M A)
  : M A :=
  match body with
  | (t, Normal (inl error)) => let (t', c) := handler error in (t ++ t', c)
  | (t, Normal (inr a)) => (t, Normal a)
  | (t, Throw e) => let (t', c) := handler (WithMessage e) in (t ++ t', c)
  | (t, Continue) => (t, Continue)
  | (t, Return) => (t, Return)
  end.

(** The hook with collaborators whose promises may reject with any value. *)
Module Rejecting.
Section Hook.

Variable getNode : option string -> option FileNode.
Variable createNodeId : string -> string.
Variable createContentDigest : string -> string.
Variable loadNodeContent : Node -> Rejection + string.
Variable optimize : string -> Rejection + string.

(** The body of the [try] block. *)
Definition inlineSvg (node : Node) : M (Rejection + unit) :=
  let id := createNodeId (node_id node) in
  awaited (loadNodeContent node) (fun fileContent =>
    when (negb (truthy (JStr fileContent)))
         (console_warn ["Empty content for SVG file: " ^^ node_id node] ;;
          return_) ;;
    awaited (optimize fileContent) (fun rawSvg =>
      let svgNode := OfSvg {|
        svg_id := id;
        svg_children := [];
        svg_rawSvg := rawSvg;
        svg_parent := node_id node;
        svg_type := "InlineSvg";
        svg_contentDigest := createContentDigest rawSvg
      |} in
      createNode svgNode ;;
      createParentChildLink node svgNode ;;
      ret (inr tt))).

(** The [catch] block. *)
Definition inlineSvgFailed (node : Node) (error : Rejection) : M unit :=
  message <- errorMessage error ;;
  console_error ["Error processing SVG file " ^^ node_id node ^^ ":"; shown message].

Definition onCreateNodeBody (node : Node) : M unit :=
  when (includes typesToSlug (internal_type (node_internal node)))
       (match getNode (node_parent node) with
        | None =>
            console_warn ["Parent file node not found for node: " ^^ node_id node] ;;
            return_
        | Some fileNode =>
            let fileName := file_name fileNode in
            createNodeField node "slug" fileName
        end) ;;
  when (String.eqb (internal_type (node_internal node)) "PagesJson")
       (createFieldsForObject createNodeId createContentDigest node
                              (JObj (nodeEntries node)) (node_id node ^^ "_")) ;;
  when (match internal_mediaType (node_internal node) with
        | Some m => String.eqb m "image/svg+xml"
        | None => false
        end)
       (tryCatchAny (inlineSvg node) (inlineSvgFailed node)).

(** [exports.onCreateNode]; [node] and [actions] may be missing. *)
Definition onCreateNode (node : option Node) (actions : bool) : M unit :=
  asFunction
    (match node with
     | Some n =>
         if negb actions
         then console_error ["Node and actions are required"] ;; return_
         else onCreateNodeBody n
     | None => console_error ["Node and actions are required"] ;; return_
     end).

End Hook.
End Rejecting.

(** A collaborator that rejects with an [Error] of the given message. *)
Definition rejectingWithErrors {A B} (f : A -> string + B) (a : A) : Rejection + B :=
  match f a with
  | inl message => inl (WithMessage message)
  | inr b => inr b
  end.

(** [exports.onCreateNode] with collaborators that reject with [Error]
    objects, given by their messages. *)
Definition onCreateNode
           (getNode : option string -> option FileNode)
           (createNodeId createContentDigest : string -> string)
           (loadNodeContent : Node -> string + string)
           (optimize : string -> string + string)
           (node : option Node) (actions : bool) : M unit :=
  Rejecting.onCreateNode getNode createNodeId createContentDigest
                         (rejectingWithErrors loadNodeContent)
                         (rejectingWithErrors optimize)
                         node actions.

(* ------------------------------------------------------------------ *)
(** ** [createPages] *)

(** The three query texts, by what they select: all [PagesJson] nodes, or the
    [MarkdownRemark] nodes whose front-matter [type] equals the given one,
    newest first. *)
Inductive Query : Type :=
| AllPagesJson
| AllMarkdownRemark (type : string).

(** [nodes { navigation { link } }] *)
Record Navigation : Type := mkNavigation { nav_link : option string }.
Record PagesJsonNode : Type := mkPagesJsonNode { pj_navigation : option Navigation }.

(** [nodes { fields { ... } }], as far as the hook reads an item:
    [fields.slug] and [fields.externalLink] ([JUndefined] when the item has
    no such property). *)
Record Fields : Type := mkFields {
  fields_slug : string;
  fields_externalLink : JsValue
}.
Record MarkdownRemarkNode : Type := mkMarkdownRemarkNode { mr_fields : Fields }.

(** What [await graphql(...)] resolves to: [errors], [data.allPagesJson.nodes]
    and [data.allMarkdownRemark.nodes]. *)
Record QueryResult : Type := mkQueryResult {
  qr_errors : option string;
  qr_allPagesJson : option (list PagesJsonNode);
  qr_allMarkdownRemark : option (list MarkdownRemarkNode)
}.

(** [Math.ceil(n / d)] for array lengths [n] and a positive page size [d];
    the quotient of two such integers is rounded by the division to a double
    that lies strictly between the same two integers as the exact quotient, so
    the ceiling is the integer one. *)
Definition Math_ceil_div (n d : nat) : nat :=
  n / d + (if Nat.eqb (n mod d) 0 then 0 else 1).

(** [for (let i = lo; i < hi; i++) body(i)] *)
Definition forRange (body : nat -> M unit) (lo hi : nat) : M unit :=
  forLoop body lo (hi - lo).

(** [o.p] where [o] may be [undefined]. *)
Definition member {A} (o : option A) : M A :=
  match o with
  | Some a => ret a
  | None => throw "TypeError"
  end.

(** [xs[i].p]: reading a property of an element that may be out of range. *)
Definition index {A} (xs : list A) (i : nat) : M A := member (nth_error xs i).

Definition isSome {A} (o : option A) : bool :=
  match o with Some _ => true | None => false end.

Definition mediaTypes : list (string * string) :=
  [("announcements", "Announcements"); ("blog", "Blog")].

Definition pageSize : nat := 10.

Definition JNat (n : nat) : JsValue := JNum (Z.of_nat n).

Section CreatePages.

Variable graphql : Query -> QueryResult.

Definition createPage (p : Page) : M unit := emit (CreatePage p).

(** The static-page loop body. *)
Definition staticPageBody (pages : list PagesJsonNode) (i : nat) : M unit :=
  page <- index pages i ;;
  let skip : M unit :=
    console_warn ["Page " ^^ String_of_nat i ^^ " is missing navigation link, skipping"] ;;
    continue_ in
  match pj_navigation page with
  | None => skip
  | Some navigation =>
      match nav_link navigation with
      | None => skip
      | Some link =>
          when (negb (truthy (JStr link))) skip ;;
          createPage {|
            page_path := link;
            page_component := StaticPageTemplate;
            page_context := [("link", JStr link)]
          |}
      end
  end.

(** The list-page loop body of a media type. *)
Definition mediaListBody (mediaType title : string) (numPages i : nat) : M unit :=
  createPage {|
    page_path := if Nat.eqb i 0
                 then "/media/" ^^ mediaType
                 else "/media/" ^^ mediaType ^^ "/" ^^ String_of_nat (i + 1);
    page_component := MediaListTemplate;
    page_context :=
      [("limit", JNat pageSize);
       ("skip", JNat (i * pageSize));
       ("mediaType", JStr mediaType);
       ("title", JStr title);
       ("numPages", JNat numPages);
       ("currentPage", JNat (i + 1));
       ("basePage", JStr ("/media/" ^^ mediaType));
       ("link", JStr ("/media/" ^^ mediaType ^^
                      (if Nat.ltb 0 i then "/" ^^ String_of_nat (i + 1) else "")))]
  |}.

(** The item-page loop body of a media type. *)
Definition mediaItemBody (mediaType : string) (results : list MarkdownRemarkNode)
           (i : nat) : M unit :=
  item <- index results i ;;
  when (negb (truthy (fields_externalLink (mr_fields item))))
       (createPage {|
          page_path := "/media/" ^^ mediaType ^^ "/" ^^ fields_slug (mr_fields item);
          page_component := MediaPageTemplate;
          page_context :=
            [("slug", JStr (fields_slug (mr_fields item)));
             ("link", JStr ("/media/" ^^ mediaType ^^ "/" ^^ fields_slug (mr_fields item)));
             ("mediaType", JStr mediaType)]
        |}).

(** The body of [for (let [mediaType, title] of mediaTypes)]. *)
Definition mediaTypeBody (entry : string * string) : M unit :=
  let (mediaType, title) := entry in
  let mediaResult := graphql (AllMarkdownRemark mediaType) in
  match qr_errors mediaResult with
  | Some errors =>
      console_error ["Error fetching " ^^ mediaType ^^ ":"; errors] ;;
      continue_
  | None => ret tt
  end ;;
  results <- member (qr_allMarkdownRemark mediaResult) ;;
  let numPages := Math_ceil_div (List.length results) pageSize in
  forRange (mediaListBody mediaType title numPages) 0 numPages ;;
  forRange (mediaItemBody mediaType results) 0 (List.length results).

(** The list-page loop body of the news articles. *)
Definition newsListBody (numPages i : nat) : M unit :=
  createPage {|
    page_path := if Nat.eqb i 0
                 then "/media/news"
                 else "/media/news/" ^^ String_of_nat (i + 1);
    page_component := NewsListTemplate;
    page_context :=
      [("limit", JNat 15);
       ("skip", JNat (i * 15));
       ("numPages", JNat numPages);
       ("currentPage", JNat (i + 1));
       ("basePage", JStr "/media/news");
       ("link", JStr ("/media/news" ^^
                      (if Nat.ltb 0 i then "/" ^^ String_of_nat (i + 1) else "")))]
  |}.

Definition staticPages : M unit :=
  let pagesResult := graphql AllPagesJson in
  match qr_errors pagesResult with
  | Some errors =>
      console_error ["Error fetching pages:"; errors] ;;
      throw "Failed to fetch pages"
  | None => ret tt
  end ;;
  pages <- member (qr_allPagesJson pagesResult) ;;
  forRange (staticPageBody pages) 0 (List.length pages).

Definition announcementsAndBlogPosts : M unit :=
  forOf mediaTypeBody mediaTypes.

Definition newsArticles : M unit :=
  let newsResult := graphql (AllMarkdownRemark "news") in
  match qr_errors newsResult with
  | Some errors =>
      console_error ["Error fetching news articles:"; errors] ;;
      throw "Failed to fetch news articles"
  | None => ret tt
  end ;;
  results <- member (qr_allMarkdownRemark newsResult) ;;
  let numPages := Math_ceil_div (List.length results) 15 in
  forRange (newsListBody numPages) 0 numPages.

Definition createPagesBody : M unit :=
  staticPages ;;
  announcementsAndBlogPosts ;;
  newsArticles.

End CreatePages.

(** [exports.createPages]; [graphql] and [createPage] may be missing. *)
Definition createPages (graphql : option (Query -> QueryResult)) (createPage : bool)
  : M unit :=
  asFunction
    (match graphql with
     | Some g =>
         if negb createPage
         then console_error ["GraphQL and createPage are required"] ;; return_
         else createPagesBody g
     | None => console_error ["GraphQL and createPage are required"] ;; return_
     end).

(* ------------------------------------------------------------------ *)
(** ** Reading a run *)

(** The nodes handed to [createNode], in call order. *)
Definition createdNodes (t : list Event) : list NewNode :=
  flat_map (fun e => match e with CreateNode n => [n] | _ => [] end) t.

Definition createdMdNodes (t : list Event) : list MdNode :=
  flat_map (fun e => match e with CreateNode (OfMd m) => [m] | _ => [] end) t.

Definition createdSvgNodes (t : list Event) : list SvgNode :=
  flat_map (fun e => match e with CreateNode (OfSvg s) => [s] | _ => [] end) t.

(** The [(name, value)] pairs handed to [createNodeField] for node [i]. *)
Definition nodeFields (i : string) (t : list Event) : list (string * string) :=
  flat_map (fun e => match e with
                     | CreateNodeField j name value =>
                         if String.eqb i j then [(name, value)] else []
                     | _ => []
                     end) t.

(** What went to [console.warn] and [console.error]. *)
Definition diagnostics (t : list Event) : list (list string) :=
  flat_map (fun e => match e with
                     | ConsoleWarn a => [a]
                     | ConsoleError a => [a]
                     | _ => []
                     end) t.

(** The pages handed to [createPage], in call order. *)
Definition createdPages (t : list Event) : list Page :=
  flat_map (fun e => match e with CreatePage p => [p] | _ => [] end) t.

Definition Template_eqb (a b : Template) : bool :=
  match a, b with
  | StaticPageTemplate, StaticPageTemplate => true
  | MediaListTemplate, MediaListTemplate => true
  | MediaPageTemplate, MediaPageTemplate => true
  | NewsListTemplate, NewsListTemplate => true
  | _, _ => false
  end.

(** The created pages that render with template [c]. *)
Definition pagesOf (c : Template) (t : list Event) : list Page :=
  filter (fun p => Template_eqb (page_component p) c) (createdPages t).

(** [context[k]] *)
Fixpoint contextGet (k : string) (context : list (string * JsValue)) : option JsValue :=
  match context with
  | [] => None
  | (k', v) :: r => if String.eqb k k' then Some v else contextGet k r
  end.

(* ------------------------------------------------------------------ *)
(** ** The markdown fields of a payload, read off the value itself *)

(** [k1_k2_..._kn] *)
Fixpoint joinKeys (ks : list string) : string :=
  match ks with
  | [] => ""
  | [k] => k
  | k :: r => k ^^ "_" ^^ joinKeys r
  end.

(** The key contains the separator of the path. *)
Fixpoint hasUnderscore (k : string) : bool :=
  match k with
  | EmptyString => false
  | String c r => Ascii.eqb c "_" || hasUnderscore r
  end.

(** What follows a key in a joined path: nothing, or the separator. *)
Definition afterKey (t : string) : Prop := t = "" \/ exists u, t = String "_" u.

(** [flat_map] with the position of each element, counted from [i]. *)
Section FlatMapFrom.
Context {A B : Type}.
Variable f : nat -> A -> list B.
Fixpoint flat_map_from (i : nat) (xs : list A) : list B :=
  match xs with
  | [] => []
  | x :: r => f i x ++ flat_map_from (S i) r
  end.
End FlatMapFrom.

(** The markdown fields contributed by the field [k] with value [x], where
    [nested] are the markdown fields found inside [x]. *)
Definition fieldOf (k : string) (x : JsValue) (nested : list (list string * string))
  : list (list string * string) :=
  match x with
  | JStr s => if startsWith k "md" then [([k], s)] else []
  | JObj _ | JArr _ => map (fun f : list string * string => (k :: fst f, snd f)) nested
  | _ => []
  end.

(** Every string-valued field whose key starts with ["md"], at any depth,
    with its key path from the root and its content, in document order.
    Array elements are fields named by their index. *)
Fixpoint markdownFields (v : JsValue) : list (list string * string) :=
  match v with
  | JObj es =>
      flat_map (fun kv : string * JsValue =>
                  let (k, x) := kv in fieldOf k x (markdownFields x)) es
  | JArr xs =>
      flat_map_from (fun i x => fieldOf (String_of_nat i) x (markdownFields x)) 0 xs
  | _ => []
  end.

(** The first entry under key [k]. *)
Fixpoint entryOf (k : string) (es : list (string * JsValue)) : option JsValue :=
  match es with
  | [] => None
  | (k', x) :: r => if String.eqb k k' then Some x else entryOf k r
  end.

(** The element whose index, counted from [i], prints as [k]. *)
Fixpoint elementOf (k : string) (i : nat) (xs : list JsValue) : option JsValue :=
  match xs with
  | [] => None
  | x :: r => if String.eqb k (String_of_nat i) then Some x else elementOf k (S i) r
  end.

(** [obj[k]] for an own property of an object or an element of an array. *)
Definition property (obj : JsValue) (k : string) : option JsValue :=
  match obj with
  | JObj es => entryOf k es
  | JArr xs => elementOf k 0 xs
  | _ => None
  end.

(** [obj[k1][k2]...[kn]] *)
Fixpoint propertyAt (obj : JsValue) (ks : list string) : option JsValue :=
  match ks with
  | [] => Some obj
  | k :: r =>
      match property obj k with
      | Some x => propertyAt x r
      | None => None
      end
  end.

(** The value is an object in the sense of the recursion test:
    [value && typeof value === "object"]. *)
Definition isObject (v : JsValue) : bool :=
  truthy v && String.eqb (typeof v) "object".

(** The node that the field with key path [fst f] and content [snd f]
    should give, for a walk entered with [path]. *)
Definition markdownNode (createNodeId createContentDigest : string -> string)
           (node : Node) (path : string) (f : list string * string) : MdNode :=
  {| md_id := createNodeId (path ^^ joinKeys (fst f));
     md_key := last (fst f) "";
     md_children := [];
     md_parent := node_id node;
     md_type := "JsonMarkdownField";
     md_mediaType := "text/markdown";
     md_content := snd f;
     md_contentDigest := createContentDigest (snd f) |}.

(** The two calls made for one field. *)
Definition fieldEvents (createNodeId createContentDigest : string -> string)
           (node : Node) (path : string) (f : list string * string) : list Event :=
  let m := markdownNode createNodeId createContentDigest node path f in
  [CreateNode (OfMd m); CreateParentChildLink (node_id node) (md_id m)].

(* ------------------------------------------------------------------ *)
(** ** The calls of [onCreateNode], step by step *)

Section OnCreateNodeSteps.

Variable getNode : option string -> option FileNode.
Variable createNodeId : string -> string.
Variable createContentDigest : string -> string.
Variable loadNodeContent : Node -> string + string.
Variable optimize : string -> string + string.
Variable node : Node.

(** The node is of a type to slug and its parent file node is not found. *)
Definition parentMissing : bool :=
  includes typesToSlug (internal_type (node_internal node))
  && negb (isSome (getNode (node_parent node))).

Definition slugEvents : list Event :=
  if includes typesToSlug (internal_type (node_internal node)) then
    match getNode (node_parent node) with
    | Some fileNode => [CreateNodeField (node_id node) "slug" (file_name fileNode)]
    | None => [ConsoleWarn ["Parent file node not found for node: " ^^ node_id node]]
    end
  else [].

Definition markdownEvents : list Event :=
  if String.eqb (internal_type (node_internal node)) "PagesJson" then
    flat_map (fieldEvents createNodeId createContentDigest node (node_id node ^^ "_"))
             (markdownFields (JObj (nodeEntries node)))
  else [].

Definition isSvg : bool :=
  match internal_mediaType (node_internal node) with
  | Some m => String.eqb m "image/svg+xml"
  | None => false
  end.

Definition svgFailure (message : string) : Event :=
  ConsoleError ["Error processing SVG file " ^^ node_id node ^^ ":"; message].

Definition svgEvents : list Event :=
  if isSvg then
    match loadNodeContent node with
    | inl message => [svgFailure message]
    | inr fileContent =>
        if String.eqb fileContent "" then
          [ConsoleWarn ["Empty content for SVG file: " ^^ node_id node]]
        else
          match optimize fileContent with
          | inl message => [svgFailure message]
          | inr rawSvg =>
              [CreateNode (OfSvg {|
                 svg_id := createNodeId (node_id node);
                 svg_children := [];
                 svg_rawSvg := rawSvg;
                 svg_parent := node_id node;
                 svg_type := "InlineSvg";
                 svg_contentDigest := createContentDigest rawSvg |});
               CreateParentChildLink (node_id node) (createNodeId (node_id node))]
          end
    end
  else [].

Definition onCreateNodeEvents : list Event :=
  if parentMissing then slugEvents
  else slugEvents ++ markdownEvents ++ svgEvents.

End OnCreateNodeSteps.

(** Modelled from the spec: the host's node-processing pass, which is not
    part of the sources ("for every node, Slug Deriver, Markdown Field
    Extractor, Inline Asset Resolver run as a pass").  The hook is called for
    each node in turn; a call that throws ends the pass. *)
Definition nodeProcessingPass
           (getNode : option string -> option FileNode)
           (createNodeId createContentDigest : string -> string)
           (loadNodeContent : Node -> Rejection + string)
           (optimize : string -> Rejection + string)
           (nodes : list Node) : M unit :=
  forEach (fun n => Rejecting.onCreateNode getNode createNodeId createContentDigest
                                           loadNodeContent optimize (Some n) true)
          nodes.

(* ------------------------------------------------------------------ *)
(** ** The routes of [createPages], phase by phase *)

(** The item carries an external link: [fields.externalLink] is truthy. *)
Definition carriesExternalLink (item : MarkdownRemarkNode) : bool :=
  truthy (fields_externalLink (mr_fields item)).

Definition staticPage (link : string) : Page :=
  {| page_path := link;
     page_component := StaticPageTemplate;
     page_context := [("link", JStr link)] |}.

(** The path of listing page [k] under [base]. *)
Definition listingPath (base : string) (k : nat) : string :=
  match k with
  | O => base
  | S _ => base ^^ "/" ^^ String_of_nat (k + 1)
  end.

Definition mediaListPage (mediaType title : string) (numPages k : nat) : Page :=
  {| page_path := listingPath ("/media/" ^^ mediaType) k;
     page_component := MediaListTemplate;
     page_context :=
       [("limit", JNat pageSize);
        ("skip", JNat (k * pageSize));
        ("mediaType", JStr mediaType);
        ("title", JStr title);
        ("numPages", JNat numPages);
        ("currentPage", JNat (k + 1));
        ("basePage", JStr ("/media/" ^^ mediaType));
        ("link", JStr (listingPath ("/media/" ^^ mediaType) k))] |}.

Definition mediaItemPage (mediaType : string) (item : MarkdownRemarkNode) : Page :=
  {| page_path := "/media/" ^^ mediaType ^^ "/" ^^ fields_slug (mr_fields item);
     page_component := MediaPageTemplate;
     page_context :=
       [("slug", JStr (fields_slug (mr_fields item)));
        ("link", JStr ("/media/" ^^ mediaType ^^ "/" ^^ fields_slug (mr_fields item)));
        ("mediaType", JStr mediaType)] |}.

Definition newsListPage (numPages k : nat) : Page :=
  {| page_path := listingPath "/media/news" k;
     page_component := NewsListTemplate;
     page_context :=
       [("limit", JNat 15);
        ("skip", JNat (k * 15));
        ("numPages", JNat numPages);
        ("currentPage", JNat (k + 1));
        ("basePage", JStr "/media/news");
        ("link", JStr (listingPath "/media/news" k))] |}.

(** The listing pages and then the item pages of one media type. *)
Definition mediaRoutes (mediaType title : string) (results : list MarkdownRemarkNode)
  : list Page :=
  let numPages := Math_ceil_div (List.length results) pageSize in
  map (mediaListPage mediaType title numPages) (seq 0 numPages)
  ++ map (mediaItemPage mediaType)
         (filter (fun item => negb (carriesExternalLink item)) results).

Definition newsRoutes (results : list MarkdownRemarkNode) : list Page :=
  let numPages := Math_ceil_div (List.length results) 15 in
  map (newsListPage numPages) (seq 0 numPages).

(** What one media type contributes when its query answers with errors or
    with a result list. *)
Definition mediaTypeEvents (graphql : Query -> QueryResult) (entry : string * string)
  : list Event :=
  let (mediaType, title) := entry in
  match qr_errors (graphql (AllMarkdownRemark mediaType)) with
  | Some errors => [ConsoleError ["Error fetching " ^^ mediaType ^^ ":"; errors]]
  | None =>
      match qr_allMarkdownRemark (graphql (AllMarkdownRemark mediaType)) with
      | Some results => map CreatePage (mediaRoutes mediaType title results)
      | None => []
      end
  end.

(** The query of a media type answered, with errors or with a result list. *)
Definition answered (r : QueryResult) : bool :=
  isSome (qr_errors r) || isSome (qr_allMarkdownRemark r).

(** What the static-page loop does with page [i]. *)
Definition staticPageEvents (i : nat) (page : PagesJsonNode) : list Event :=
  match pj_navigation page with
  | Some {| nav_link := Some link |} =>
      if String.eqb link ""
      then [ConsoleWarn ["Page " ^^ String_of_nat i ^^ " is missing navigation link, skipping"]]
      else [CreatePage (staticPage link)]
  | _ => [ConsoleWarn ["Page " ^^ String_of_nat i ^^ " is missing navigation link, skipping"]]
  end.

(* ------------------------------------------------------------------ *)
(** ** Sample inputs *)

(** A [PagesJson] node whose payload has a section key with an underscore
    next to a nested section of the same spelling. *)
Definition collidingNode : Node :=
  {| node_id := "n";
     node_parent := Some "file";
     node_internal := {| internal_type := "PagesJson";
                         internal_mediaType := None;
                         internal_rest := [] |};
     node_rest :=
       [("hero_image", JObj [("mdCaption", JStr "x")]);
        ("hero", JObj [("image", JObj [("mdCaption", JStr "y")])])] |}.

(** A [PagesJson] node with one markdown field of the given content. *)
Definition pageWithBody (body : string) : Node :=
  {| node_id := "n";
     node_parent := Some "file";
     node_internal := {| internal_type := "PagesJson";
                         internal_mediaType := None;
                         internal_rest := [] |};
     node_rest := [("sections", JArr [JObj [("mdBody", JStr body)]])] |}.

(** A [PagesJson] node with two markdown fields, at different depths, that
    is also served as an SVG image. *)
Definition richPage : Node :=
  {| node_id := "n";
     node_parent := Some "file";
     node_internal := {| internal_type := "PagesJson";
                         internal_mediaType := Some "image/svg+xml";
                         internal_rest := [] |};
     node_rest :=
       [("mdIntro", JStr "intro");
        ("sections", JArr [JObj [("mdBody", JStr "body")]])] |}.

(** A file node of an SVG image. *)
Definition svgFile : Node :=
  {| node_id := "logo";
     node_parent := None;
     node_internal := {| internal_type := "File";
                         internal_mediaType := Some "image/svg+xml";
                         internal_rest := [] |};
     node_rest := [("name", JStr "logo")] |}.

(** A digest collaborator that maps every content to the same value. *)
Definition constantDigest (content : string) : string := "0".

(** A digest collaborator of one byte: the sum of the character codes. *)
Fixpoint charSum (content : string) : nat :=
  match content with
  | EmptyString => 0
  | String c r => nat_of_ascii c + charSum r
  end.

Definition checksumDigest (content : string) : string :=
  String_of_nat (charSum content mod 256).

(** A digest collaborator that returns the content itself. *)
Definition identityDigest (content : string) : string := content.

Definition resolveAll (parent : option string) : option FileNode :=
  Some {| file_name := "home" |}.

Definition resolveNone (parent : option string) : option FileNode := None.

(** A load that rejects with [undefined]. *)
Definition loadRejectsUndefined (n : Node) : Rejection + string := inl Nullish.

(** A load that resolves, and an optimizer that rejects: with [undefined],
    and with a plain string as the optimizer of the code does. *)
Definition loadsCircle (n : Node) : Rejection + string := inr "<svg><circle/></svg>".
Definition optimizeRejectsUndefined (content : string) : Rejection + string :=
  inl Nullish.

Definition loadEmpty (n : Node) : string + string := inr "".
Definition optimizeFails (content : string) : string + string := inl "parse error".

(** A result list, and a failed query. *)
Definition answer (results : list MarkdownRemarkNode) : QueryResult :=
  {| qr_errors := None; qr_allPagesJson := None; qr_allMarkdownRemark := Some results |}.

Definition failure (errors : string) : QueryResult :=
  {| qr_errors := Some errors; qr_allPagesJson := None; qr_allMarkdownRemark := None |}.

Definition samplePages : list PagesJsonNode :=
  [{| pj_navigation := Some {| nav_link := Some "/about" |} |};
   {| pj_navigation := None |}].

(** A graph with two static pages and the given answers to the three
    queries by front-matter type. *)
Definition siteGraphql (announcements blog news : QueryResult) (q : Query) : QueryResult :=
  match q with
  | AllPagesJson =>
      {| qr_errors := None;
         qr_allPagesJson := Some samplePages;
         qr_allMarkdownRemark := None |}
  | AllMarkdownRemark type =>
      if String.eqb type "announcements" then announcements
      else if String.eqb type "blog" then blog
      else if String.eqb type "news" then news
      else answer []
  end.

(** Blog item [k]; item 7 carries an external link. *)
Definition blogItem (k : nat) : MarkdownRemarkNode :=
  {| mr_fields :=
       {| fields_slug := "post-" ^^ String_of_nat k;
          fields_externalLink :=
            if Nat.eqb k 7 then JStr "https://example.org/post" else JUndefined |} |}.

Definition twelveBlogItems : list MarkdownRemarkNode := map blogItem (seq 1 12).

(* ------------------------------------------------------------------ *)
(** ** Further readings of a run *)

(** The [(parent, child)] pairs handed to [createParentChildLink]. *)
Definition parentChildLinks (t : list Event) : list (string * string) :=
  flat_map (fun e => match e with
                     | CreateParentChildLink p c => [(p, c)]
                     | _ => []
                     end) t.

Definition newNodeParent (n : NewNode) : string :=
  match n with OfMd m => md_parent m | OfSvg s => svg_parent s end.

(** [pages[i].navigation && pages[i].navigation.link], when it is truthy. *)
Definition navigationLink (page : PagesJsonNode) : option string :=
  match pj_navigation page with
  | Some navigation =>
      match nav_link navigation with
      | Some link => if String.eqb link "" then None else Some link
      | None => None
      end
  | None => None
  end.

(** The links of the pages that have one, in order. *)
Definition staticLinks (pages : list PagesJsonNode) : list string :=
  flat_map (fun page => match navigationLink page with
                        | Some link => [link]
                        | None => []
                        end) pages.

(** No two keys of the list are equal. *)
Fixpoint distinctKeys (ks : list string) : bool :=
  match ks with
  | [] => true
  | k :: r => negb (existsb (String.eqb k) r) && distinctKeys r
  end.

(** Every object inside the value has pairwise different keys, none of which
    contains an underscore. *)
Fixpoint wellKeyed (v : JsValue) : bool :=
  match v with
  | JObj es =>
      distinctKeys (map fst es)
      && forallb (fun kv : string * JsValue =>
                    let (k, x) := kv in negb (hasUnderscore k) && wellKeyed x) es
  | JArr xs => forallb wellKeyed xs
  | _ => true
  end.

(** An item whose slug is a page number, and a result list of eleven
    items that contains it. *)
Definition pageTwoItem : MarkdownRemarkNode :=
  {| mr_fields := {| fields_slug := "2"; fields_externalLink := JUndefined |} |}.

Definition elevenItems : list MarkdownRemarkNode :=
  pageTwoItem :: map blogItem (seq 1 10).

(** An optimizer that returns its input. *)
Definition optimizeKeeps (content : string) : string + string := inr content.

Definition loadCircle (n : Node) : string + string := inr "<svg><circle/></svg>".

(* ------------------------------------------------------------------ *)
(** ** The remark plugin that makes image paths relative *)

Module Pathify.

(** A node of the markdown syntax tree, as far as the plugin reads it: its
    [type], its [url] (absent on most node types) and its [children]. *)
#[warnings="-register-all"] Inductive Mdast : Type :=
| MdastNode (type : string) (url : option string) (children : list Mdast).

Record PluginOptions : Type := mkPluginOptions {
  relativePathPrefix : option string
}.

(** [!node.url] *)
Definition noUrl (url : option string) : bool :=
  match url with
  | Some u => String.eqb u ""
  | None => true
  end.

(** The visitor passed to [visit]; it answers the [url] the node has when
    the call is over. *)
Definition imageVisitor (relativePathPrefix : string) (url : option string)
  : M (option string) :=
  if noUrl url then
    console_warn ["gatsby-relative-pathify-images: Image node missing URL"] ;;
    ret url
  else
    match url with
    | Some u =>
        if negb (startsWith u ".") then ret (Some (relativePathPrefix ^^ u))
        else ret url
    | None => ret url
    end.

Section Traverse.
Context {A B : Type}.
Variable f : A -> M B.
(** The children of a node, visited in order. *)
Fixpoint visitAll (xs : list A) : M (list B) :=
  match xs with
  | [] => ret []
  | x :: r => y <- f x ;; ys <- visitAll r ;; ret (y :: ys)
  end.
End Traverse.

(** [visit(tree, test, visitor)] of [unist-util-visit], which is not part of
    the sources: the tree is walked depth first, a node before its children
    and the children in order, and the visitor is called on every node whose
    [type] is [test]; the visitor here changes nothing but the [url] of the
    node it is called on. *)
Fixpoint visit (test : string) (visitor : option string -> M (option string))
         (tree : Mdast) {struct tree} : M Mdast :=
  match tree with
  | MdastNode type url children =>
      url' <- (if String.eqb type test then visitor url else ret url) ;;
      children' <- visitAll (visit test visitor) children ;;
      ret (MdastNode type url' children')
  end.

(** [module.exports = ({ markdownAST }, pluginOptions) => ...] *)
Definition relativePathifyImages (markdownAST : option Mdast)
           (pluginOptions : option PluginOptions) : M (option Mdast) :=
  match markdownAST with
  | None =>
      console_error ["gatsby-relative-pathify-images: markdownAST is required"] ;;
      ret markdownAST
  | Some tree =>
      let missing : M (option Mdast) :=
        console_warn
          ["gatsby-relative-pathify-images: relativePathPrefix option is missing"] ;;
        ret markdownAST in
      match pluginOptions with
      | None => missing
      | Some options =>
          match relativePathPrefix options with
          | None => missing
          | Some prefix =>
              if String.eqb prefix "" then missing
              else
                tree' <- visit "image" (imageVisitor prefix) tree ;;
                ret (Some tree')
          end
      end
  end.

(** The tree with the [url] of every image node forgotten. *)
Fixpoint withoutImageUrls (tree : Mdast) : Mdast :=
  match tree with
  | MdastNode type url children =>
      MdastNode type (if String.eqb type "image" then None else url)
                (map withoutImageUrls children)
  end.

(** The [url]s of the image nodes, in document order. *)
Fixpoint imageUrls (tree : Mdast) : list (option string) :=
  match tree with
  | MdastNode type url children =>
      (if String.eqb type "image" then [url] else [])
      ++ flat_map imageUrls children
  end.

(** What the plugin makes of the [url] of an image. *)
Definition pathified (prefix : string) (url : option string) : option string :=
  match url with
  | Some u =>
      if String.eqb u "" then url
      else if startsWith u "." then url
      else Some (prefix ^^ u)
  | None => url
  end.

(** The tree with [g] applied to the [url] of every image node. *)
Fixpoint mapImageUrls (g : option string -> option string) (tree : Mdast) : Mdast :=
  match tree with
  | MdastNode type url children =>
      MdastNode type (if String.eqb type "image" then g url else url)
                (map (mapImageUrls g) children)
  end.

(** The [url] is there and starts with a dot. *)
Definition isRelative (url : option string) : bool :=
  match url with
  | Some u => startsWith u "."
  | None => false
  end.

(** The warnings of a walk: one for every image node without a [url]. *)
Definition missingUrlWarnings (tree : Mdast) : list Event :=
  flat_map (fun url => if noUrl url
                       then [ConsoleWarn
                               ["gatsby-relative-pathify-images: Image node missing URL"]]
                       else [])
           (imageUrls tree).

Definition sampleTree : Mdast :=
  MdastNode "root" None
    [MdastNode "paragraph" None
       [MdastNode "image" (Some "img/logo.png") [];
        MdastNode "link" (Some "https://example.org") [];
        MdastNode "image" (Some "./local.png") []];
     MdastNode "image" None []].

End Pathify.

(* ------------------------------------------------------------------ *)
(** ** The deployment context *)

Module Context.

(** [process.env], as far as it is read: a variable is a string or unset. *)
Record ProcessEnv : Type := mkProcessEnv {
  NODE_ENV : option string;
  URL : option string;
  CONTEXT : option string
}.

(** [!v] for a string that may be undefined. *)
Definition unset (v : option string) : bool :=
  match v with
  | Some s => String.eqb s ""
  | None => true
  end.

(** The robots configuration binds
    [const { NODE_ENV, URL = "https://dds.mil", CONTEXT = NODE_ENV } = process.env]:
    a default stands in for a variable that is undefined. *)
Definition robotsURL (env : ProcessEnv) : string :=
  match URL env with
  | Some url => url
  | None => "https://dds.mil"
  end.

Definition robotsCONTEXT (env : ProcessEnv) : option string :=
  match CONTEXT env with
  | Some context => Some context
  | None => NODE_ENV env
  end.

(** [resolveEnv] of the robots configuration. *)
Definition resolveEnv (env : ProcessEnv) : M (option string) :=
  when (unset (robotsCONTEXT env))
       (console_warn ["CONTEXT environment variable not set, using NODE_ENV"]) ;;
  ret (robotsCONTEXT env).

(** The browser hooks bind [const ctx = process.env.CONTEXT || env] with
    [env = process.env.NODE_ENV]. *)
Definition browserCtx (env : ProcessEnv) : option string :=
  if unset (CONTEXT env) then NODE_ENV env else CONTEXT env.

End Context.

(* ================================================================== *)
(** * Properties *)

(** ** Strings, lists and loops *)

Lemma append_assoc (a b c : string) : (a ^^ b) ^^ c = a ^^ b ^^ c.
Proof.
  induction a as [|ch a IH]; simpl; [reflexivity | now rewrite IH].
Qed.

Lemma append_empty_r (a : string) : a ^^ "" = a.
Proof.
  induction a as [|ch a IH]; simpl; [reflexivity | now rewrite IH].
Qed.

Lemma flat_map_pointwise {A B} (f g : A -> list B) (xs : list A) :
  (forall x, In x xs -> f x = g x) -> flat_map f xs = flat_map g xs.
Proof.
  induction xs as [|x r IH]; intros H; simpl; [reflexivity|].
  rewrite (H x (or_introl eq_refl)), IH; [reflexivity|].
  intros y Hy. apply H. now right.
Qed.

Lemma flat_map_of_map {A B C} (f : B -> list C) (h : A -> B) (xs : list A) :
  flat_map f (map h xs) = flat_map (fun x => f (h x)) xs.
Proof.
  induction xs as [|x r IH]; simpl; [reflexivity | now rewrite IH].
Qed.

Lemma in_flat_map_from {A B} (f : nat -> A -> list B) (xs : list A) (i : nat) (b : B) :
  In b (flat_map_from f i xs) ->
  exists j x, In x xs /\ In b (f j x).
Proof.
  revert i. induction xs as [|x r IH]; simpl; intros i H; [contradiction|].
  apply in_app_or in H. destruct H as [H|H].
  - exists i, x. auto.
  - destruct (IH _ H) as (j & y & Hy & Hb). exists j, y. auto.
Qed.

Lemma JsValue_nested_ind (P : JsValue -> Prop)
      (Hundefined : P JUndefined) (Hnull : P JNull)
      (Hbool : forall b, P (JBool b)) (Hnum : forall z, P (JNum z))
      (Hstr : forall s, P (JStr s))
      (Harr : forall xs, Forall P xs -> P (JArr xs))
      (Hobj : forall es, Forall (fun kv => P (snd kv)) es -> P (JObj es)) :
  forall v, P v.
Proof.
  fix IH 1. intros [ | | b | z | s | xs | es].
  - exact Hundefined.
  - exact Hnull.
  - apply Hbool.
  - apply Hnum.
  - apply Hstr.
  - apply Harr. induction xs as [|x r IHr]; constructor; [apply IH | exact IHr].
  - apply Hobj. induction es as [|[k x] r IHr]; constructor; [apply IH | exact IHr].
Qed.

Lemma forEach_run {A} (f : A -> M unit) (g : A -> list Event) (xs : list A) :
  (forall x, In x xs -> f x = (g x, Normal tt)) ->
  forEach f xs = (flat_map g xs, Normal tt).
Proof.
  induction xs as [|x r IH]; intros H; simpl; [reflexivity|].
  rewrite (H x (or_introl eq_refl)). unfold bind.
  rewrite IH; [reflexivity|]. intros y Hy. apply H. now right.
Qed.

Lemma forEachFrom_run {A} (f : nat -> A -> M unit) (g : nat -> A -> list Event)
      (xs : list A) :
  (forall j x, In x xs -> f j x = (g j x, Normal tt)) ->
  forall i, forEachFrom f i xs = (flat_map_from g i xs, Normal tt).
Proof.
  induction xs as [|x r IH]; intros H i; simpl; [reflexivity|].
  rewrite (H i x (or_introl eq_refl)). unfold bind.
  rewrite IH; [reflexivity|]. intros j y Hy. apply H. now right.
Qed.

Lemma forLoop_run (body : nat -> M unit) (g : nat -> list Event) (count : nat) :
  forall lo,
    (forall i, lo <= i < lo + count -> iteration (body i) = (g i, Normal tt)) ->
    forLoop body lo count = (flat_map g (seq lo count), Normal tt).
Proof.
  induction count as [|c IH]; intros lo H; simpl; [reflexivity|].
  rewrite (H lo) by lia. unfold bind.
  rewrite IH; [reflexivity|]. intros i Hi. apply H. lia.
Qed.

Lemma forRange_run (body : nat -> M unit) (g : nat -> list Event) (hi : nat) :
  (forall i, i < hi -> iteration (body i) = (g i, Normal tt)) ->
  forRange body 0 hi = (flat_map g (seq 0 hi), Normal tt).
Proof.
  intros H. unfold forRange. rewrite Nat.sub_0_r.
  apply forLoop_run. intros i Hi. apply H. lia.
Qed.

Lemma flat_map_flat_map {A B C} (f : B -> list C) (g : A -> list B) (xs : list A) :
  flat_map f (flat_map g xs) = flat_map (fun x => flat_map f (g x)) xs.
Proof.
  induction xs as [|x r IH]; simpl; [reflexivity|].
  now rewrite flat_map_app, IH.
Qed.

Lemma flat_map_flat_map_from {A B C} (f : B -> list C) (g : nat -> A -> list B)
      (xs : list A) :
  forall i,
    flat_map f (flat_map_from g i xs)
    = flat_map_from (fun j x => flat_map f (g j x)) i xs.
Proof.
  induction xs as [|x r IH]; intros i; simpl; [reflexivity|].
  now rewrite flat_map_app, IH.
Qed.

(** Visiting the positions of a list, reading the element at each, is
    visiting the elements. *)
Lemma flat_map_positions {A B} (h : A -> list B) (xs : list A) :
  flat_map (fun i => match nth_error xs i with Some x => h x | None => [] end)
           (seq 0 (List.length xs))
  = flat_map h xs.
Proof.
  induction xs as [|x r IH]; simpl; [reflexivity|].
  rewrite <- seq_shift, flat_map_of_map. simpl. now rewrite IH.
Qed.

(* ------------------------------------------------------------------ *)
(** ** The markdown field extractor *)

Lemma fieldOf_keys (k : string) (x : JsValue) (nested : list (list string * string))
      (f : list string * string) :
  In f (fieldOf k x nested) -> fst f <> [].
Proof.
  destruct x; simpl; try contradiction.
  - destruct (startsWith k "md"); simpl; [|contradiction].
    intros [<-|[]]. discriminate.
  - rewrite in_map_iff. intros (g & <- & _). discriminate.
  - rewrite in_map_iff. intros (g & <- & _). discriminate.
Qed.

Lemma markdownFields_keys (v : JsValue) (f : list string * string) :
  In f (markdownFields v) -> fst f <> [].
Proof.
  destruct v; simpl; try contradiction.
  - intros H. apply in_flat_map_from in H. destruct H as (j & x & _ & H).
    exact (fieldOf_keys _ _ _ _ H).
  - rewrite in_flat_map. intros ([k x] & _ & H).
    exact (fieldOf_keys _ _ _ _ H).
Qed.

Lemma joinKeys_cons (k : string) (ks : list string) :
  ks <> [] -> joinKeys (k :: ks) = k ^^ "_" ^^ joinKeys ks.
Proof.
  destruct ks; [congruence | reflexivity].
Qed.

Lemma last_cons (k : string) (ks : list string) :
  ks <> [] -> last (k :: ks) "" = last ks "".
Proof.
  destruct ks; [congruence | reflexivity].
Qed.

Section Extractor.

Variable createNodeId : string -> string.
Variable createContentDigest : string -> string.
Variable node : Node.

Local Abbreviation walk := (createFieldsForObject createNodeId createContentDigest node).
Local Abbreviation events := (fieldEvents createNodeId createContentDigest node).

Lemma fieldEvents_nested (path k : string) (f : list string * string) :
  fst f <> [] ->
  events path (k :: fst f, snd f) = events ((path ^^ k) ^^ "_") f.
Proof.
  intros H. unfold events, fieldEvents, markdownNode. cbn [fst snd md_id].
  rewrite (joinKeys_cons k H), (last_cons k H), !append_assoc.
  reflexivity.
Qed.

Lemma visitEntry_run (path k : string) (x : JsValue) :
  (isObject x = true ->
   forall p, walk x p = (flat_map (events p) (markdownFields x), Normal tt)) ->
  visitEntry createNodeId createContentDigest node path k x (walk x)
  = (flat_map (events path) (fieldOf k x (markdownFields x)), Normal tt).
Proof.
  intros IH. unfold visitEntry.
  destruct x as [ | | b | z | s | xs | es]; cbn [typeof truthy String.eqb fieldOf];
    try reflexivity.
  - destruct b; reflexivity.
  - destruct (negb (z =? 0)%Z); reflexivity.
  - cbn. destruct (startsWith k "md"); cbn.
    + reflexivity.
    + destruct (negb (s =? "")); reflexivity.
  - unfold walk in *. cbn -[createFieldsForObject markdownFields].
    rewrite (IH eq_refl), flat_map_of_map.
    f_equal. apply flat_map_pointwise. intros f Hf. symmetry.
    apply fieldEvents_nested. exact (markdownFields_keys _ _ Hf).
  - unfold walk in *. cbn -[createFieldsForObject markdownFields].
    rewrite (IH eq_refl), flat_map_of_map.
    f_equal. apply flat_map_pointwise. intros f Hf. symmetry.
    apply fieldEvents_nested. exact (markdownFields_keys _ _ Hf).
Qed.

(** The walk over an object or array makes the two calls for each of its
    markdown fields, in document order, and completes normally. *)
Lemma createFieldsForObject_run (obj : JsValue) :
  isObject obj = true ->
  forall path,
    walk obj path = (flat_map (events path) (markdownFields obj), Normal tt).
Proof.
  induction obj as [ | | b | z | s | xs IH | es IH] using JsValue_nested_ind;
    try discriminate.
  - destruct b; discriminate.
  - unfold isObject; simpl. destruct (negb (z =? 0)%Z); discriminate.
  - unfold isObject; simpl. destruct (negb (s =? "")); discriminate.
  - intros _ path. unfold walk. cbn [createFieldsForObject markdownFields].
    rewrite flat_map_flat_map_from. apply forEachFrom_run.
    intros j x Hx. apply visitEntry_run.
    rewrite Forall_forall in IH. exact (IH x Hx).
  - intros _ path. unfold walk. cbn [createFieldsForObject markdownFields].
    rewrite flat_map_flat_map. apply forEach_run.
    intros [k x] Hx. apply visitEntry_run.
    rewrite Forall_forall in IH. exact (IH (k, x) Hx).
Qed.

(** The nodes created by the walk are the nodes of the markdown fields. *)
Lemma createdMdNodes_fieldEvents (path : string) (fs : list (list string * string)) :
  createdMdNodes (flat_map (events path) fs)
  = map (markdownNode createNodeId createContentDigest node path) fs.
Proof.
  induction fs as [|f r IH]; [reflexivity|].
  cbn [flat_map map]. unfold createdMdNodes in *.
  rewrite flat_map_app, IH. reflexivity.
Qed.

Lemma createdSvgNodes_fieldEvents (path : string) (fs : list (list string * string)) :
  createdSvgNodes (flat_map (events path) fs) = [].
Proof.
  induction fs as [|f r IH]; [reflexivity|].
  cbn [flat_map]. unfold createdSvgNodes in *.
  rewrite flat_map_app, IH. reflexivity.
Qed.

Lemma nodeFields_fieldEvents (i path : string) (fs : list (list string * string)) :
  nodeFields i (flat_map (events path) fs) = [].
Proof.
  induction fs as [|f r IH]; [reflexivity|].
  cbn [flat_map]. unfold nodeFields in *.
  rewrite flat_map_app, IH. reflexivity.
Qed.

Lemma diagnostics_fieldEvents (path : string) (fs : list (list string * string)) :
  diagnostics (flat_map (events path) fs) = [].
Proof.
  induction fs as [|f r IH]; [reflexivity|].
  cbn [flat_map]. unfold diagnostics in *.
  rewrite flat_map_app, IH. reflexivity.
Qed.
End Extractor.

(** A field of [obj] hands its markdown fields on to [obj]. *)
Lemma entryOf_In (k : string) (es : list (string * JsValue)) (x : JsValue) :
  entryOf k es = Some x -> In (k, x) es.
Proof.
  induction es as [|[k' y] r IH]; simpl; [discriminate|].
  destruct (String.eqb_spec k k') as [->|_].
  - intros [= ->]. now left.
  - intros H. right. exact (IH H).
Qed.

Lemma elementOf_flat_map_from {B} (g : nat -> JsValue -> list B) (k : string)
      (xs : list JsValue) (x : JsValue) :
  forall i,
    elementOf k i xs = Some x ->
    exists j, k = String_of_nat j /\ incl (g j x) (flat_map_from g i xs).
Proof.
  induction xs as [|y r IH]; simpl; intros i; [discriminate|].
  destruct (String.eqb_spec k (String_of_nat i)) as [->|_].
  - intros [= ->]. exists i. split; [reflexivity|].
    intros b Hb. apply in_or_app. now left.
  - intros H. destruct (IH _ H) as (j & Hj & Hincl).
    exists j. split; [exact Hj|].
    intros b Hb. apply in_or_app. right. exact (Hincl b Hb).
Qed.

Lemma property_markdownFields (obj : JsValue) (k : string) (x : JsValue)
      (f : list string * string) :
  property obj k = Some x ->
  In f (fieldOf k x (markdownFields x)) ->
  In f (markdownFields obj).
Proof.
  destruct obj as [ | | b | z | s | xs | es]; simpl; try discriminate.
  - intros H Hf.
    destruct (elementOf_flat_map_from
                (fun i y => fieldOf (String_of_nat i) y (markdownFields y)) _ _ _ H)
      as (j & -> & Hincl).
    exact (Hincl f Hf).
  - intros H Hf. apply in_flat_map. exists (k, x).
    split; [exact (entryOf_In _ _ H) | exact Hf].
Qed.

(** A string found under a key path that ends in a marked key is one of the
    markdown fields. *)
Lemma propertyAt_markdownFields (ks : list string) (k s : string) :
  startsWith k "md" = true ->
  forall obj,
    propertyAt obj (ks ++ [k]) = Some (JStr s) ->
    In (ks ++ [k], s) (markdownFields obj).
Proof.
  intros Hk. induction ks as [|k0 r IH]; intros obj; simpl.
  - destruct (property obj k) as [x|] eqn:Hp; [|discriminate].
    intros [= ->]. eapply property_markdownFields; [exact Hp|].
    simpl. rewrite Hk. now left.
  - destruct (property obj k0) as [x|] eqn:Hp; [|discriminate].
    intros H. specialize (IH x H).
    eapply property_markdownFields; [exact Hp|].
    destruct x; simpl in IH; try contradiction; simpl;
      apply in_map_iff; exists (r ++ [k], s); auto.
Qed.

Section ExtractorTrace.

Variable createNodeId : string -> string.
Variable createContentDigest : string -> string.
Variable node : Node.

(** Whatever the walk is entered with, the nodes it creates are the nodes
    of the markdown fields, one for one and in the same order. *)
Lemma createdMdNodes_walk (obj : JsValue) (path : string) :
  createdMdNodes
    (trace (createFieldsForObject createNodeId createContentDigest node obj path))
  = map (markdownNode createNodeId createContentDigest node path)
        (markdownFields obj).
Proof.
  destruct (isObject obj) eqn:Hobj.
  - rewrite (createFieldsForObject_run _ _ _ _ Hobj).
    apply createdMdNodes_fieldEvents.
  - destruct obj; try reflexivity; discriminate.
Qed.

End ExtractorTrace.

(* ------------------------------------------------------------------ *)
(** ** The node hook in closed form *)

Section OnCreateNodeRun.

Variable getNode : option string -> option FileNode.
Variable createNodeId : string -> string.
Variable createContentDigest : string -> string.
Variable loadNodeContent : Node -> string + string.
Variable optimize : string -> string + string.

Local Abbreviation hook :=
  (onCreateNode getNode createNodeId createContentDigest loadNodeContent optimize).

(** The hook always completes normally, and its calls are those of the
    three steps, cut short after the warning when the parent is missing. *)
Lemma onCreateNode_run (node : Node) :
  hook (Some node) true
  = (onCreateNodeEvents getNode createNodeId createContentDigest
                        loadNodeContent optimize node,
     Normal tt).
Proof.
  unfold hook, onCreateNode, Rejecting.onCreateNode, Rejecting.onCreateNodeBody,
    onCreateNodeEvents, parentMissing, slugEvents, markdownEvents, svgEvents, isSvg,
    Rejecting.inlineSvg, rejectingWithErrors.
  cbn [negb truthy].
  destruct (String.eqb (internal_type (node_internal node)) "PagesJson");
    [rewrite (createFieldsForObject_run createNodeId createContentDigest node
                (JObj (nodeEntries node)) eq_refl);
     generalize (flat_map
                   (fieldEvents createNodeId createContentDigest node
                                (node_id node ^^ "_"))
                   (markdownFields (JObj (nodeEntries node)))); intros fs | ];
    destruct (includes typesToSlug (internal_type (node_internal node)));
    destruct (getNode (node_parent node)) as [fileNode|];
    destruct (internal_mediaType (node_internal node)) as [m|];
    try destruct (String.eqb m "image/svg+xml");
    try destruct (loadNodeContent node) as [e|fileContent];
    cbn;
    try destruct (String.eqb fileContent "");
    cbn;
    try destruct (optimize fileContent) as [e|rawSvg];
    cbn; rewrite ?app_nil_r; reflexivity.
Qed.

End OnCreateNodeRun.

(* ------------------------------------------------------------------ *)
(** ** Claims about the markdown field extractor *)

(** C5.  For every payload mapping, the nodes created by the extraction are,
    one for one and in order, the nodes of the string-valued fields whose key
    starts with the marker, so each such field yields exactly one node, and
    every string found under a key path that ends in a marked key has its
    node among them; the walk completes normally; and a second extraction of
    the same payload, also for another node object, creates nodes with
    pairwise the same identifiers and the same digests, as does running the
    extraction twice in a row. *)
Theorem markdown_fields_extracted_once
        (createNodeId createContentDigest : string -> string)
        (first second : Node) (es : list (string * JsValue)) (path : string) :
  let run n := createFieldsForObject createNodeId createContentDigest n (JObj es) path in
  createdMdNodes (trace (run first))
  = map (markdownNode createNodeId createContentDigest first path)
        (markdownFields (JObj es))
  /\ List.length (createdNodes (trace (run first)))
     = List.length (markdownFields (JObj es))
  /\ (forall ks k s,
         startsWith k "md" = true ->
         propertyAt (JObj es) (ks ++ [k]) = Some (JStr s) ->
         In (markdownNode createNodeId createContentDigest first path (ks ++ [k], s))
            (createdMdNodes (trace (run first))))
  /\ completion (run first) = Normal tt
  /\ map md_id (createdMdNodes (trace (run first)))
     = map md_id (createdMdNodes (trace (run second)))
  /\ map md_contentDigest (createdMdNodes (trace (run first)))
     = map md_contentDigest (createdMdNodes (trace (run second)))
  /\ createdMdNodes (trace (run first ;; run first))
     = createdMdNodes (trace (run first)) ++ createdMdNodes (trace (run first)).
Proof.
  intros run. unfold run.
  rewrite !createdMdNodes_walk.
  rewrite (createFieldsForObject_run createNodeId createContentDigest first
             (JObj es) eq_refl path).
  repeat apply conj.
  - reflexivity.
  - unfold trace, fst.
    induction (markdownFields (JObj es)) as [|f r IH]; [reflexivity|].
    simpl. now rewrite IH.
  - intros ks k s Hk Hat. apply in_map.
    exact (@propertyAt_markdownFields ks k s Hk (JObj es) Hat).
  - reflexivity.
  - rewrite !map_map. reflexivity.
  - rewrite !map_map. reflexivity.
  - unfold bind, trace, fst, createdMdNodes.
    rewrite flat_map_app.
    change (createdMdNodes
              (flat_map (fieldEvents createNodeId createContentDigest first path)
                        (markdownFields (JObj es)))
            ++ createdMdNodes
                 (flat_map (fieldEvents createNodeId createContentDigest first path)
                           (markdownFields (JObj es)))
            = map (markdownNode createNodeId createContentDigest first path)
                  (markdownFields (JObj es))
              ++ map (markdownNode createNodeId createContentDigest first path)
                     (markdownFields (JObj es))).
    now rewrite createdMdNodes_fieldEvents.
Qed.

Lemma markdown_fields_extracted_once_witness :
  let run := createFieldsForObject identityDigest checksumDigest (pageWithBody "text")
                                   (JObj (nodeEntries (pageWithBody "text"))) "n_" in
  List.length (createdNodes (trace run)) = 1
  /\ In (markdownNode identityDigest checksumDigest (pageWithBody "text") "n_"
                      (["sections"; "0"] ++ ["mdBody"], "text"))
        (createdMdNodes (trace run)).
Proof.
  intros run.
  destruct (@markdown_fields_extracted_once identityDigest checksumDigest
              (pageWithBody "text") (pageWithBody "text")
              (nodeEntries (pageWithBody "text")) "n_")
    as (_ & Hcount & Hfield & _).
  split.
  - exact Hcount.
  - apply Hfield; reflexivity.
Defined.

(** C9.  A field whose key starts with the marker and whose value is the
    empty string, at any key path of the payload, still gets its node: the
    node is created with empty content, under the identifier of its path. *)
Theorem empty_markdown_field_is_extracted
        (createNodeId createContentDigest : string -> string)
        (node : Node) (obj : JsValue) (path : string)
        (ks : list string) (k : string) :
  startsWith k "md" = true ->
  propertyAt obj (ks ++ [k]) = Some (JStr "") ->
  In (CreateNode (OfMd {|
        md_id := createNodeId (path ^^ joinKeys (ks ++ [k]));
        md_key := k;
        md_children := [];
        md_parent := node_id node;
        md_type := "JsonMarkdownField";
        md_mediaType := "text/markdown";
        md_content := "";
        md_contentDigest := createContentDigest "" |}))
     (trace (createFieldsForObject createNodeId createContentDigest node obj path)).
Proof.
  intros Hk Hat.
  pose proof (@propertyAt_markdownFields ks k "" Hk obj Hat) as Hin.
  assert (Hobj : isObject obj = true).
  { destruct obj; try reflexivity; simpl in Hin; contradiction. }
  rewrite (createFieldsForObject_run createNodeId createContentDigest node obj Hobj).
  unfold trace, fst. apply in_flat_map. exists (ks ++ [k], "").
  split; [exact Hin|].
  left. unfold markdownNode. cbn [fst snd]. now rewrite last_last.
Qed.

Lemma empty_markdown_field_is_extracted_witness :
  In (CreateNode (OfMd {|
        md_id := identityDigest ("n_" ^^ joinKeys (["sections"; "0"] ++ ["mdBody"]));
        md_key := "mdBody";
        md_children := [];
        md_parent := "n";
        md_type := "JsonMarkdownField";
        md_mediaType := "text/markdown";
        md_content := "";
        md_contentDigest := constantDigest "" |}))
     (trace (createFieldsForObject identityDigest constantDigest (pageWithBody "")
               (JObj (nodeEntries (pageWithBody ""))) "n_")).
Proof.
  apply (@empty_markdown_field_is_extracted identityDigest constantDigest
           (pageWithBody "") (JObj (nodeEntries (pageWithBody ""))) "n_"
           ["sections"; "0"] "mdBody"); reflexivity.
Defined.

(** C2.  The identifiers of one node's markdown fields are not unique: the
    key paths [hero_image.mdCaption] and [hero.image.mdCaption] are distinct
    fields of the payload, and both of their nodes are created under the
    identifier made from the same string [n_hero_image_mdCaption], whatever
    the identifier collaborator is. *)
Theorem key_paths_collide
        (createNodeId createContentDigest : string -> string)
        (loadNodeContent : Node -> string + string)
        (optimize : string -> string + string) :
  let run := onCreateNode resolveAll createNodeId createContentDigest
                          loadNodeContent optimize (Some collidingNode) true in
  propertyAt (JObj (nodeEntries collidingNode)) ["hero_image"; "mdCaption"]
  = Some (JStr "x")
  /\ propertyAt (JObj (nodeEntries collidingNode)) ["hero"; "image"; "mdCaption"]
     = Some (JStr "y")
  /\ map (fun m => (md_content m, md_id m)) (createdMdNodes (trace run))
     = [("x", createNodeId "n_hero_image_mdCaption");
        ("y", createNodeId "n_hero_image_mdCaption")].
Proof.
  repeat split.
Qed.

(** *** Where identifiers cannot collide

    The collision needs a key that contains the separator: key paths made of
    keys without an underscore are read back from the joined string, so two
    different such paths give different strings to the identifier
    collaborator. *)

Lemma append_cancel_l (p a b : string) : p ^^ a = p ^^ b -> a = b.
Proof.
  induction p as [|c p IH]; simpl; [trivial|].
  intros [= H]. exact (IH H).
Qed.

Lemma key_split (k k' t t' : string) :
  hasUnderscore k = false -> hasUnderscore k' = false ->
  afterKey t -> afterKey t' ->
  k ^^ t = k' ^^ t' -> k = k' /\ t = t'.
Proof.
  revert k'. induction k as [|c k IH]; intros [|c' k'] Hk Hk' Ht Ht'; simpl.
  - auto.
  - intros ->. destruct Ht as [Ht | (u & Ht)]; [discriminate|].
    injection Ht as -> _. simpl in Hk'. discriminate.
  - intros <-. destruct Ht' as [Ht' | (u & Ht')]; [discriminate|].
    injection Ht' as -> _. simpl in Hk. discriminate.
  - intros [= -> H]. simpl in Hk, Hk'.
    apply orb_false_elim in Hk. apply orb_false_elim in Hk'.
    destruct (IH k' (proj2 Hk) (proj2 Hk') Ht Ht' H) as [-> ->]. auto.
Qed.

Lemma joinKeys_unfold (k : string) (ks : list string) :
  joinKeys (k :: ks)
  = k ^^ match ks with [] => "" | _ :: _ => "_" ^^ joinKeys ks end.
Proof.
  destruct ks; simpl; [now rewrite append_empty_r | reflexivity].
Qed.

Lemma joinKeys_injective (ks ks' : list string) :
  Forall (fun k => hasUnderscore k = false) ks ->
  Forall (fun k => hasUnderscore k = false) ks' ->
  ks <> [] -> ks' <> [] ->
  joinKeys ks = joinKeys ks' -> ks = ks'.
Proof.
  revert ks'. induction ks as [|k r IH]; intros [|k' r'] Hks Hks' Hne Hne';
    try congruence.
  rewrite !joinKeys_unfold. intros H.
  inversion Hks as [|? ? Hk Hr]; subst. inversion Hks' as [|? ? Hk' Hr']; subst.
  apply key_split in H; try assumption.
  - destruct H as [-> Htail]. f_equal.
    destruct r as [|k1 r1], r' as [|k1' r1']; try discriminate; [reflexivity|].
    simpl in Htail. injection Htail as Htail.
    apply IH; try assumption; discriminate.
  - destruct r; [now left | right; eexists; reflexivity].
  - destruct r'; [now left | right; eexists; reflexivity].
Qed.

(** Two markdown fields of one payload with different key paths, none of
    whose keys contains an underscore, are created under different path
    strings. *)
Lemma paths_without_underscore_differ (obj : JsValue) (path : string)
      (f1 f2 : list string * string) :
  In f1 (markdownFields obj) -> In f2 (markdownFields obj) ->
  Forall (fun k => hasUnderscore k = false) (fst f1) ->
  Forall (fun k => hasUnderscore k = false) (fst f2) ->
  fst f1 <> fst f2 ->
  path ^^ joinKeys (fst f1) <> path ^^ joinKeys (fst f2).
Proof.
  intros H1 H2 Hk1 Hk2 Hne Heq. apply Hne.
  apply joinKeys_injective; try assumption.
  - exact (markdownFields_keys _ _ H1).
  - exact (markdownFields_keys _ _ H2).
  - exact (append_cancel_l _ _ _ Heq).
Qed.

(** C6, as stated, fails: with a digest collaborator that does not tell two
    contents apart, here a one-byte checksum, two payloads that differ only in
    the content of one markdown field give that field's node the same
    digest. *)
Lemma digests_may_coincide :
  let nodesOf body :=
    createdMdNodes
      (trace (onCreateNode resolveAll identityDigest checksumDigest
                           loadEmpty optimizeFails (Some (pageWithBody body)) true)) in
  map md_content (nodesOf "listen") = ["listen"]
  /\ map md_content (nodesOf "silent") = ["silent"]
  /\ map md_contentDigest (nodesOf "listen") = map md_contentDigest (nodesOf "silent").
Proof.
  repeat split.
Qed.

(** C6, amended.  The digest of every created markdown node is the digest
    collaborator applied to the node's content, so nodes of equal content
    have equal digests, across payloads, nodes and paths; nodes of different
    content have different digests when the digest collaborator is
    injective. *)
Theorem digest_is_function_of_content
        (createNodeId createContentDigest : string -> string)
        (n1 n2 : Node) (obj1 obj2 : JsValue) (path1 path2 : string)
        (m1 m2 : MdNode) :
  In m1 (createdMdNodes
           (trace (createFieldsForObject createNodeId createContentDigest n1 obj1 path1))) ->
  In m2 (createdMdNodes
           (trace (createFieldsForObject createNodeId createContentDigest n2 obj2 path2))) ->
  md_contentDigest m1 = createContentDigest (md_content m1)
  /\ (md_content m1 = md_content m2 -> md_contentDigest m1 = md_contentDigest m2)
  /\ ((forall a b, createContentDigest a = createContentDigest b -> a = b) ->
      md_content m1 <> md_content m2 ->
      md_contentDigest m1 <> md_contentDigest m2).
Proof.
  rewrite !createdMdNodes_walk, !in_map_iff.
  intros (f1 & <- & _) (f2 & <- & _). cbn [markdownNode md_content md_contentDigest].
  repeat split.
  - intros ->. reflexivity.
  - intros Hinj Hne Heq. exact (Hne (Hinj _ _ Heq)).
Qed.

Lemma digest_is_function_of_content_witness :
  let m body := markdownNode identityDigest identityDigest (pageWithBody body) "n_"
                             (["sections"; "0"; "mdBody"], body) in
  md_contentDigest (m "first") = identityDigest (md_content (m "first"))
  /\ md_contentDigest (m "first") <> md_contentDigest (m "second").
Proof.
  intros m.
  destruct (@digest_is_function_of_content identityDigest identityDigest
              (pageWithBody "first") (pageWithBody "second")
              (JObj (nodeEntries (pageWithBody "first")))
              (JObj (nodeEntries (pageWithBody "second"))) "n_" "n_"
              (m "first") (m "second"))
    as (Hdigest & _ & Hdiffer).
  - simpl. left. reflexivity.
  - simpl. left. reflexivity.
  - split; [exact Hdigest|].
    apply Hdiffer.
    + intros a b H. exact H.
    + discriminate.
Defined.

(* ------------------------------------------------------------------ *)
(** ** Claims about the slug and the inline SVG *)

Section StepObservations.

Variable getNode : option string -> option FileNode.
Variable createNodeId : string -> string.
Variable createContentDigest : string -> string.
Variable loadNodeContent : Node -> string + string.
Variable optimize : string -> string + string.
Variable node : Node.

Lemma nodeFields_markdownEvents (i : string) :
  nodeFields i (markdownEvents createNodeId createContentDigest node) = [].
Proof.
  unfold markdownEvents.
  destruct (String.eqb _ _); [apply nodeFields_fieldEvents | reflexivity].
Qed.

Lemma nodeFields_svgEvents (i : string) :
  nodeFields i (svgEvents createNodeId createContentDigest loadNodeContent optimize node)
  = [].
Proof.
  unfold svgEvents.
  destruct (isSvg node); [|reflexivity].
  destruct (loadNodeContent node) as [e|c]; [reflexivity|].
  destruct (String.eqb c ""); [reflexivity|].
  destruct (optimize c); reflexivity.
Qed.

Lemma createdSvgNodes_slugEvents :
  createdSvgNodes (slugEvents getNode node) = [].
Proof.
  unfold slugEvents.
  destruct (includes _ _); [|reflexivity].
  destruct (getNode _); reflexivity.
Qed.

Lemma createdSvgNodes_markdownEvents :
  createdSvgNodes (markdownEvents createNodeId createContentDigest node) = [].
Proof.
  unfold markdownEvents.
  destruct (String.eqb _ _); [apply createdSvgNodes_fieldEvents | reflexivity].
Qed.

End StepObservations.

(** The markdown nodes of a whole run of the hook on a [PagesJson] node
    whose parent resolves: the nodes of the markdown fields of the node
    object, under the path [{id}_]. *)
Lemma onCreateNode_markdown_nodes
      (getNode : option string -> option FileNode)
      (createNodeId createContentDigest : string -> string)
      (loadNodeContent : Node -> string + string)
      (optimize : string -> string + string)
      (node : Node) (fileNode : FileNode) :
  internal_type (node_internal node) = "PagesJson" ->
  getNode (node_parent node) = Some fileNode ->
  createdMdNodes
    (trace (onCreateNode getNode createNodeId createContentDigest
                         loadNodeContent optimize (Some node) true))
  = map (markdownNode createNodeId createContentDigest node (node_id node ^^ "_"))
        (markdownFields (JObj (nodeEntries node))).
Proof.
  intros Htype Hparent. rewrite onCreateNode_run.
  unfold onCreateNodeEvents, parentMissing, slugEvents, markdownEvents, trace, fst.
  rewrite Htype, Hparent. cbn [includes typesToSlug existsb String.eqb Ascii.eqb
                               Bool.eqb orb andb isSome negb].
  unfold createdMdNodes. rewrite !flat_map_app.
  change (createdMdNodes [CreateNodeField (node_id node) "slug" (file_name fileNode)]
          ++ createdMdNodes
               (flat_map (fieldEvents createNodeId createContentDigest node
                                      (node_id node ^^ "_"))
                         (markdownFields (JObj (nodeEntries node))))
          ++ createdMdNodes
               (svgEvents createNodeId createContentDigest loadNodeContent optimize node)
          = map (markdownNode createNodeId createContentDigest node (node_id node ^^ "_"))
                (markdownFields (JObj (nodeEntries node)))).
  rewrite createdMdNodes_fieldEvents.
  assert (Hsvg : createdMdNodes
                   (svgEvents createNodeId createContentDigest
                              loadNodeContent optimize node) = []).
  { unfold svgEvents. destruct (isSvg node); [|reflexivity].
    destruct (loadNodeContent node) as [e|c]; [reflexivity|].
    destruct (String.eqb c ""); [reflexivity|].
    destruct (optimize c); reflexivity. }
  rewrite Hsvg. cbn [createdMdNodes flat_map app]. apply app_nil_r.
Qed.

(** C7.  For a node of one of the types to slug: when the parent file node
    resolves, the hook attaches exactly one field to the node, the slug, and
    its value is the name of the parent file; when it does not resolve, the
    hook logs the warning, attaches nothing, makes no other call and returns
    normally. *)
Theorem slug_is_parent_file_name
        (getNode : option string -> option FileNode)
        (createNodeId createContentDigest : string -> string)
        (loadNodeContent : Node -> string + string)
        (optimize : string -> string + string)
        (node : Node) :
  includes typesToSlug (internal_type (node_internal node)) = true ->
  let run := onCreateNode getNode createNodeId createContentDigest
                          loadNodeContent optimize (Some node) true in
  (forall fileNode,
      getNode (node_parent node) = Some fileNode ->
      nodeFields (node_id node) (trace run) = [("slug", file_name fileNode)]
      /\ completion run = Normal tt)
  /\ (getNode (node_parent node) = None ->
      run = ([ConsoleWarn ["Parent file node not found for node: " ^^ node_id node]],
             Normal tt)).
Proof.
  intros Htype run. unfold run. rewrite onCreateNode_run.
  unfold onCreateNodeEvents, parentMissing, trace, completion, fst, snd.
  rewrite Htype. split.
  - intros fileNode Hparent. rewrite Hparent. cbn [isSome negb andb].
    split; [|reflexivity].
    unfold nodeFields. rewrite !flat_map_app.
    change (nodeFields (node_id node) (slugEvents getNode node)
            ++ nodeFields (node_id node)
                          (markdownEvents createNodeId createContentDigest node)
            ++ nodeFields (node_id node)
                          (svgEvents createNodeId createContentDigest
                                     loadNodeContent optimize node)
            = [("slug", file_name fileNode)]).
    rewrite nodeFields_markdownEvents, nodeFields_svgEvents.
    unfold slugEvents. rewrite Htype, Hparent. cbn [nodeFields flat_map].
    rewrite String.eqb_refl. reflexivity.
  - intros Hparent. rewrite Hparent. cbn [isSome negb andb].
    unfold slugEvents. rewrite Htype, Hparent. reflexivity.
Qed.

Lemma slug_is_parent_file_name_witness :
  nodeFields "n"
    (trace (onCreateNode resolveAll identityDigest constantDigest
                         loadEmpty optimizeFails (Some (pageWithBody "text")) true))
  = [("slug", "home")]
  /\ onCreateNode resolveNone identityDigest constantDigest
                  loadEmpty optimizeFails (Some (pageWithBody "text")) true
     = ([ConsoleWarn ["Parent file node not found for node: n"]], Normal tt).
Proof.
  split.
  - apply (proj1 (@slug_is_parent_file_name resolveAll identityDigest constantDigest
                    loadEmpty optimizeFails (pageWithBody "text") eq_refl)
                 {| file_name := "home" |} eq_refl).
  - apply (proj2 (@slug_is_parent_file_name resolveNone identityDigest constantDigest
                    loadEmpty optimizeFails (pageWithBody "text") eq_refl)
                 eq_refl).
Defined.


(** C8.  The failure escapes when the rejection is [undefined] or [null]:
    for the SVG file whose load rejects with [undefined], and for the one
    whose optimization does, the [catch] block throws on reading
    [error.message]; the hook ends with that TypeError, nothing is logged, and
    the pass over this node and any further nodes ends with it. *)
Theorem nullish_rejection_escapes_the_hook
        (getNode : option string -> option FileNode)
        (createNodeId createContentDigest : string -> string)
        (optimize : string -> Rejection + string)
        (rest : list Node) :
  Rejecting.onCreateNode getNode createNodeId createContentDigest
                         loadRejectsUndefined optimize (Some svgFile) true
  = ([], Throw "TypeError")
  /\ Rejecting.onCreateNode getNode createNodeId createContentDigest
                            loadsCircle optimizeRejectsUndefined (Some svgFile) true
     = ([], Throw "TypeError")
  /\ nodeProcessingPass getNode createNodeId createContentDigest
                        loadRejectsUndefined optimize (svgFile :: rest)
     = ([], Throw "TypeError").
Proof.
  repeat split.
Qed.



(* ------------------------------------------------------------------ *)
(** ** The page hook in closed form *)

Lemma flat_map_from_shift {A B} (h : nat -> A -> list B) (xs : list A) :
  forall i, flat_map_from (fun j => h (S j)) i xs = flat_map_from h (S i) xs.
Proof.
  induction xs as [|x r IH]; intros i; simpl; [reflexivity | now rewrite IH].
Qed.

(** Visiting the positions of a list with the position at hand. *)
Lemma flat_map_positions_from {A B} (h : nat -> A -> list B) (xs : list A) :
  flat_map (fun i => match nth_error xs i with Some x => h i x | None => [] end)
           (seq 0 (List.length xs))
  = flat_map_from h 0 xs.
Proof.
  revert h. induction xs as [|x r IH]; intros h; simpl; [reflexivity|].
  rewrite <- seq_shift, flat_map_of_map. simpl.
  now rewrite (IH (fun j => h (S j))), flat_map_from_shift.
Qed.

Lemma flat_map_singleton {A B} (f : A -> B) (xs : list A) :
  flat_map (fun x => [f x]) xs = map f xs.
Proof.
  induction xs as [|x r IH]; simpl; [reflexivity | now rewrite IH].
Qed.

Lemma flat_map_guarded {A B} (keep : A -> bool) (f : A -> B) (xs : list A) :
  flat_map (fun x => if keep x then [f x] else []) xs = map f (filter keep xs).
Proof.
  induction xs as [|x r IH]; simpl; [reflexivity|].
  destruct (keep x); simpl; now rewrite IH.
Qed.

(** [Math.ceil(n / d)] is the least number of pages of [d] that hold [n]. *)
Lemma Math_ceil_div_bounds (n d : nat) :
  0 < d -> n <= Math_ceil_div n d * d < n + d.
Proof.
  intros Hd. unfold Math_ceil_div.
  pose proof (Nat.div_mod_eq n d) as Heq.
  pose proof (Nat.mod_upper_bound n d ltac:(lia)) as Hlt.
  destruct (Nat.eqb_spec (n mod d) 0) as [Hz|Hnz]; nia.
Qed.

Section CreatePagesRun.

Variable graphql : Query -> QueryResult.

Lemma staticPageBody_run (pages : list PagesJsonNode) (i : nat) (page : PagesJsonNode) :
  nth_error pages i = Some page ->
  iteration (staticPageBody pages i) = (staticPageEvents i page, Normal tt).
Proof.
  intros H. unfold staticPageBody, staticPageEvents, index. rewrite H.
  cbn [member bind ret app].
  destruct (pj_navigation page) as [[[link|]]|]; try reflexivity.
  cbn. destruct (String.eqb link ""); reflexivity.
Qed.

Lemma staticPages_run (pages : list PagesJsonNode) :
  qr_errors (graphql AllPagesJson) = None ->
  qr_allPagesJson (graphql AllPagesJson) = Some pages ->
  staticPages graphql = (flat_map_from staticPageEvents 0 pages, Normal tt).
Proof.
  intros He Hd. unfold staticPages. rewrite He, Hd. cbn [bind ret member app].
  rewrite (@forRange_run (staticPageBody pages)
             (fun i => match nth_error pages i with
                       | Some page => staticPageEvents i page
                       | None => []
                       end)).
  - now rewrite flat_map_positions_from.
  - intros i Hi. destruct (nth_error pages i) as [page|] eqn:Hp.
    + exact (staticPageBody_run _ _ Hp).
    + apply nth_error_None in Hp. lia.
Qed.

Lemma staticPages_fail (errors : string) :
  qr_errors (graphql AllPagesJson) = Some errors ->
  staticPages graphql
  = ([ConsoleError ["Error fetching pages:"; errors]], Throw "Failed to fetch pages").
Proof.
  intros He. unfold staticPages. rewrite He. reflexivity.
Qed.

Lemma mediaListBody_run (mediaType title : string) (numPages i : nat) :
  iteration (mediaListBody mediaType title numPages i)
  = ([CreatePage (mediaListPage mediaType title numPages i)], Normal tt).
Proof.
  unfold mediaListBody, mediaListPage, listingPath.
  destruct i as [|i]; cbn.
  - now rewrite append_empty_r.
  - reflexivity.
Qed.

Lemma mediaItemBody_run (mediaType : string) (results : list MarkdownRemarkNode)
      (i : nat) (item : MarkdownRemarkNode) :
  nth_error results i = Some item ->
  iteration (mediaItemBody mediaType results i)
  = (if negb (carriesExternalLink item)
     then [CreatePage (mediaItemPage mediaType item)] else [],
     Normal tt).
Proof.
  intros H. unfold mediaItemBody, index, carriesExternalLink. rewrite H.
  cbn [member bind ret app].
  destruct (negb (truthy (fields_externalLink (mr_fields item)))); reflexivity.
Qed.

Lemma newsListBody_run (numPages i : nat) :
  iteration (newsListBody numPages i)
  = ([CreatePage (newsListPage numPages i)], Normal tt).
Proof.
  unfold newsListBody, newsListPage, listingPath.
  destruct i as [|i]; reflexivity.
Qed.

(** One media type whose query answered with a result list. *)
Lemma mediaTypeBody_run (mediaType title : string) (results : list MarkdownRemarkNode) :
  qr_errors (graphql (AllMarkdownRemark mediaType)) = None ->
  qr_allMarkdownRemark (graphql (AllMarkdownRemark mediaType)) = Some results ->
  mediaTypeBody graphql (mediaType, title)
  = (map CreatePage (mediaRoutes mediaType title results), Normal tt).
Proof.
  intros He Hd. unfold mediaTypeBody, mediaRoutes. rewrite He, Hd.
  cbn [bind ret member app].
  rewrite (@forRange_run _ (fun i => [CreatePage
             (mediaListPage mediaType title
                (Math_ceil_div (List.length results) pageSize) i)]))
    by (intros i _; apply mediaListBody_run).
  rewrite (@forRange_run (mediaItemBody mediaType results)
             (fun i => match nth_error results i with
                       | Some item =>
                           if negb (carriesExternalLink item)
                           then [CreatePage (mediaItemPage mediaType item)] else []
                       | None => []
                       end)).
  - rewrite (flat_map_positions
               (fun item => if negb (carriesExternalLink item)
                            then [CreatePage (mediaItemPage mediaType item)] else [])).
    rewrite flat_map_singleton.
    rewrite (flat_map_guarded (fun item => negb (carriesExternalLink item))
                              (fun item => CreatePage (mediaItemPage mediaType item))).
    now rewrite map_app, !map_map.
  - intros i Hi. destruct (nth_error results i) as [item|] eqn:Hp.
    + exact (mediaItemBody_run _ _ _ Hp).
    + apply nth_error_None in Hp. lia.
Qed.

(** One media type whose query answered with errors. *)
Lemma mediaTypeBody_skip (mediaType title errors : string) :
  qr_errors (graphql (AllMarkdownRemark mediaType)) = Some errors ->
  mediaTypeBody graphql (mediaType, title)
  = ([ConsoleError ["Error fetching " ^^ mediaType ^^ ":"; errors]], Continue).
Proof.
  intros He. unfold mediaTypeBody. rewrite He. reflexivity.
Qed.

Lemma mediaTypeBody_iteration (entry : string * string) :
  answered (graphql (AllMarkdownRemark (fst entry))) = true ->
  iteration (mediaTypeBody graphql entry) = (mediaTypeEvents graphql entry, Normal tt).
Proof.
  destruct entry as [mediaType title]. unfold answered, mediaTypeEvents. cbn [fst].
  destruct (qr_errors (graphql (AllMarkdownRemark mediaType))) as [errors|] eqn:He.
  - intros _. now rewrite (mediaTypeBody_skip _ _ He).
  - destruct (qr_allMarkdownRemark (graphql (AllMarkdownRemark mediaType)))
      as [results|] eqn:Hd; [|discriminate].
    intros _. now rewrite (mediaTypeBody_run _ _ He Hd).
Qed.

Lemma announcementsAndBlogPosts_run :
  (forall entry, In entry mediaTypes ->
                 answered (graphql (AllMarkdownRemark (fst entry))) = true) ->
  announcementsAndBlogPosts graphql
  = (flat_map (mediaTypeEvents graphql) mediaTypes, Normal tt).
Proof.
  unfold announcementsAndBlogPosts.
  induction mediaTypes as [|entry r IH]; intros H; [reflexivity|].
  cbn [forOf flat_map].
  rewrite (mediaTypeBody_iteration entry (H entry (or_introl eq_refl))).
  unfold bind. rewrite IH; [reflexivity|].
  intros e He. apply H. now right.
Qed.

Lemma newsArticles_run (results : list MarkdownRemarkNode) :
  qr_errors (graphql (AllMarkdownRemark "news")) = None ->
  qr_allMarkdownRemark (graphql (AllMarkdownRemark "news")) = Some results ->
  newsArticles graphql = (map CreatePage (newsRoutes results), Normal tt).
Proof.
  intros He Hd. unfold newsArticles, newsRoutes. rewrite He, Hd.
  cbn [bind ret member app].
  rewrite (@forRange_run _ (fun i => [CreatePage
             (newsListPage (Math_ceil_div (List.length results) 15) i)]))
    by (intros i _; apply newsListBody_run).
  now rewrite flat_map_singleton, map_map.
Qed.

Lemma newsArticles_fail (errors : string) :
  qr_errors (graphql (AllMarkdownRemark "news")) = Some errors ->
  newsArticles graphql
  = ([ConsoleError ["Error fetching news articles:"; errors]],
     Throw "Failed to fetch news articles").
Proof.
  intros He. unfold newsArticles. rewrite He. reflexivity.
Qed.

End CreatePagesRun.

Section CreatePagesWhole.

Variable graphql : Query -> QueryResult.
Variable pages : list PagesJsonNode.

Hypothesis pages_ok : qr_errors (graphql AllPagesJson) = None.
Hypothesis pages_data : qr_allPagesJson (graphql AllPagesJson) = Some pages.
Hypothesis media_answered :
  forall entry, In entry mediaTypes ->
                answered (graphql (AllMarkdownRemark (fst entry))) = true.

(** All three phases, when the news query answers with a result list. *)
Lemma createPages_run (news : list MarkdownRemarkNode) :
  qr_errors (graphql (AllMarkdownRemark "news")) = None ->
  qr_allMarkdownRemark (graphql (AllMarkdownRemark "news")) = Some news ->
  createPages (Some graphql) true
  = (flat_map_from staticPageEvents 0 pages
     ++ flat_map (mediaTypeEvents graphql) mediaTypes
     ++ map CreatePage (newsRoutes news),
     Normal tt).
Proof.
  intros He Hd. unfold createPages, createPagesBody. cbn [negb].
  rewrite (staticPages_run graphql pages_ok pages_data).
  rewrite (announcementsAndBlogPosts_run graphql media_answered).
  rewrite (newsArticles_run graphql He Hd).
  reflexivity.
Qed.

(** The first two phases, and the raise of the third. *)
Lemma createPages_news_fail (errors : string) :
  qr_errors (graphql (AllMarkdownRemark "news")) = Some errors ->
  createPages (Some graphql) true
  = (flat_map_from staticPageEvents 0 pages
     ++ flat_map (mediaTypeEvents graphql) mediaTypes
     ++ [ConsoleError ["Error fetching news articles:"; errors]],
     Throw "Failed to fetch news articles").
Proof.
  intros He. unfold createPages, createPagesBody. cbn [negb].
  rewrite (staticPages_run graphql pages_ok pages_data).
  rewrite (announcementsAndBlogPosts_run graphql media_answered).
  rewrite (newsArticles_fail graphql He).
  reflexivity.
Qed.

End CreatePagesWhole.

(** ** Reading the pages of a phase *)

Lemma createdPages_CreatePage (ps : list Page) :
  createdPages (map CreatePage ps) = ps.
Proof.
  unfold createdPages. rewrite flat_map_of_map.
  induction ps as [|p r IH]; simpl; [reflexivity | now rewrite IH].
Qed.

Lemma filter_map_all {A B} (keep : B -> bool) (f : A -> B) (xs : list A) :
  (forall x, keep (f x) = true) -> filter keep (map f xs) = map f xs.
Proof.
  intros H. induction xs as [|x r IH]; simpl; [reflexivity|].
  now rewrite H, IH.
Qed.

Lemma filter_map_none {A B} (keep : B -> bool) (f : A -> B) (xs : list A) :
  (forall x, keep (f x) = false) -> filter keep (map f xs) = [].
Proof.
  intros H. induction xs as [|x r IH]; simpl; [reflexivity|].
  now rewrite H, IH.
Qed.

Lemma pagesOf_mediaRoutes_items (mediaType title : string)
      (results : list MarkdownRemarkNode) :
  pagesOf MediaPageTemplate (map CreatePage (mediaRoutes mediaType title results))
  = map (mediaItemPage mediaType)
        (filter (fun item => negb (carriesExternalLink item)) results).
Proof.
  unfold pagesOf, mediaRoutes. rewrite createdPages_CreatePage, filter_app.
  rewrite filter_map_none by reflexivity.
  now rewrite filter_map_all by reflexivity.
Qed.

Lemma pagesOf_mediaRoutes_listing (mediaType title : string)
      (results : list MarkdownRemarkNode) :
  pagesOf MediaListTemplate (map CreatePage (mediaRoutes mediaType title results))
  = map (mediaListPage mediaType title (Math_ceil_div (List.length results) pageSize))
        (seq 0 (Math_ceil_div (List.length results) pageSize)).
Proof.
  unfold pagesOf, mediaRoutes. rewrite createdPages_CreatePage, filter_app.
  rewrite filter_map_all by reflexivity.
  rewrite filter_map_none by reflexivity.
  apply app_nil_r.
Qed.

Lemma pagesOf_newsRoutes (results : list MarkdownRemarkNode) :
  pagesOf NewsListTemplate (map CreatePage (newsRoutes results))
  = map (newsListPage (Math_ceil_div (List.length results) 15))
        (seq 0 (Math_ceil_div (List.length results) 15)).
Proof.
  unfold pagesOf, newsRoutes. rewrite createdPages_CreatePage.
  now rewrite filter_map_all by reflexivity.
Qed.

(* ------------------------------------------------------------------ *)
(** ** Claims about the routes *)


(** When the result items carry [fields.slug] only, as the selection
    [nodes { fields { slug } }] of the query text has it, the test never
    excludes an item: every item of the result list gets its page. *)
Lemma item_pages_when_only_slug_is_selected
      (graphql : Query -> QueryResult) (mediaType title : string)
      (results : list MarkdownRemarkNode) :
  qr_errors (graphql (AllMarkdownRemark mediaType)) = None ->
  qr_allMarkdownRemark (graphql (AllMarkdownRemark mediaType)) = Some results ->
  Forall (fun item => fields_externalLink (mr_fields item) = JUndefined) results ->
  pagesOf MediaPageTemplate (trace (mediaTypeBody graphql (mediaType, title)))
  = map (mediaItemPage mediaType) results.
Proof.
  intros He Hd Hslug.
  rewrite (@mediaTypeBody_run graphql mediaType title results He Hd).
  unfold trace, fst. rewrite pagesOf_mediaRoutes_items. f_equal.
  clear He Hd.
  induction Hslug as [|item r Hitem _ IH]; [reflexivity|].
  cbn [filter]. unfold carriesExternalLink at 1. rewrite Hitem.
  cbn [truthy negb]. now rewrite IH.
Qed.


Lemma nth_error_map_seq {B} (f : nat -> B) (n k : nat) :
  k < n -> nth_error (map f (seq 0 n)) k = Some (f k).
Proof.
  intros Hk. rewrite nth_error_map, nth_error_seq.
  destruct (Nat.ltb_spec k n); [reflexivity | lia].
Qed.



(** C4.  When the static-page query answers with errors, the hook logs them
    and raises before any page is created.  When the queries of the media
    types answer, with errors or with results, the loop over the media types
    completes normally: a type whose query failed contributes its log line
    only, and every other type contributes all of its routes.  When the news
    query answers with errors, the hook logs them and raises; the pages of the
    earlier phases stay created and no news page is. *)
Theorem query_errors_skip_or_raise (graphql : Query -> QueryResult) :
  (forall errors,
      qr_errors (graphql AllPagesJson) = Some errors ->
      createPages (Some graphql) true
      = ([ConsoleError ["Error fetching pages:"; errors]],
         Throw "Failed to fetch pages"))
  /\ (forall pages news,
         qr_errors (graphql AllPagesJson) = None ->
         qr_allPagesJson (graphql AllPagesJson) = Some pages ->
         (forall entry, In entry mediaTypes ->
                        answered (graphql (AllMarkdownRemark (fst entry))) = true) ->
         qr_errors (graphql (AllMarkdownRemark "news")) = None ->
         qr_allMarkdownRemark (graphql (AllMarkdownRemark "news")) = Some news ->
         createPages (Some graphql) true
         = (flat_map_from staticPageEvents 0 pages
            ++ flat_map (mediaTypeEvents graphql) mediaTypes
            ++ map CreatePage (newsRoutes news),
            Normal tt))
  /\ (forall mediaType title errors,
         qr_errors (graphql (AllMarkdownRemark mediaType)) = Some errors ->
         mediaTypeEvents graphql (mediaType, title)
         = [ConsoleError ["Error fetching " ^^ mediaType ^^ ":"; errors]])
  /\ (forall mediaType title results,
         qr_errors (graphql (AllMarkdownRemark mediaType)) = None ->
         qr_allMarkdownRemark (graphql (AllMarkdownRemark mediaType)) = Some results ->
         mediaTypeEvents graphql (mediaType, title)
         = map CreatePage (mediaRoutes mediaType title results))
  /\ (forall pages errors,
         qr_errors (graphql AllPagesJson) = None ->
         qr_allPagesJson (graphql AllPagesJson) = Some pages ->
         (forall entry, In entry mediaTypes ->
                        answered (graphql (AllMarkdownRemark (fst entry))) = true) ->
         qr_errors (graphql (AllMarkdownRemark "news")) = Some errors ->
         createPages (Some graphql) true
         = (flat_map_from staticPageEvents 0 pages
            ++ flat_map (mediaTypeEvents graphql) mediaTypes
            ++ [ConsoleError ["Error fetching news articles:"; errors]],
            Throw "Failed to fetch news articles")
         /\ pagesOf NewsListTemplate (trace (newsArticles graphql)) = []).
Proof.
  repeat apply conj.
  - intros errors He. unfold createPages, createPagesBody. cbn [negb].
    now rewrite (@staticPages_fail graphql errors He).
  - intros pages news Hpe Hpd Hm Hne Hnd.
    exact (@createPages_run graphql pages Hpe Hpd Hm news Hne Hnd).
  - intros mediaType title errors He. unfold mediaTypeEvents. now rewrite He.
  - intros mediaType title results He Hd. unfold mediaTypeEvents. now rewrite He, Hd.
  - intros pages errors Hpe Hpd Hm Hne. split.
    + exact (@createPages_news_fail graphql pages Hpe Hpd Hm errors Hne).
    + now rewrite (@newsArticles_fail graphql errors Hne).
Qed.

Lemma query_errors_skip_or_raise_witness :
  createPages (Some (fun _ => failure "down")) true
  = ([ConsoleError ["Error fetching pages:"; "down"]], Throw "Failed to fetch pages")
  /\ (let run := createPages
                   (Some (siteGraphql (failure "down") (answer twelveBlogItems) (answer [])))
                   true in
      diagnostics (trace run)
      = [["Page 1 is missing navigation link, skipping"];
         ["Error fetching announcements:"; "down"]]
      /\ List.length (createdPages (trace run)) = 14
      /\ completion run = Normal tt)
  /\ (let run := createPages
                   (Some (siteGraphql (answer []) (answer twelveBlogItems) (failure "down")))
                   true in
      List.length (createdPages (trace run)) = 14
      /\ completion run = Throw "Failed to fetch news articles").
Proof.
  assert (Hanswered :
            forall a b n,
              answered a = true -> answered b = true ->
              forall entry, In entry mediaTypes ->
                answered (siteGraphql a b n (AllMarkdownRemark (fst entry))) = true).
  { intros a b n Ha Hb entry [<-|[<-|[]]]; assumption. }
  split; [|split].
  - apply (proj1 (query_errors_skip_or_raise (fun _ => failure "down")) "down").
    reflexivity.
  - cbv zeta.
    rewrite (proj1 (proj2 (query_errors_skip_or_raise
                             (siteGraphql (failure "down") (answer twelveBlogItems)
                                          (answer []))))
                   samplePages [] eq_refl eq_refl
                   (Hanswered (failure "down") (answer twelveBlogItems) (answer [])
                              eq_refl eq_refl)
                   eq_refl eq_refl).
    repeat split.
  - cbv zeta.
    destruct (query_errors_skip_or_raise
                (siteGraphql (answer []) (answer twelveBlogItems) (failure "down")))
      as (_ & _ & _ & _ & Hnews).
    destruct (Hnews samplePages "down" eq_refl eq_refl
                    (Hanswered (answer []) (answer twelveBlogItems) (failure "down")
                               eq_refl eq_refl)
                    eq_refl) as [Hrun _].
    rewrite Hrun. repeat split.
Defined.

(** C10.  A media type whose query answers with no items gets no page at
    all, not even [/media/{type}], and neither does the news listing: the
    loops run [Math.ceil(0 / P) = 0] times.  When all three result lists are
    empty, the hook makes no call beyond those of the static phase. *)
Theorem no_items_no_listing_page (graphql : Query -> QueryResult) :
  Math_ceil_div 0 pageSize = 0
  /\ Math_ceil_div 0 15 = 0
  /\ (forall mediaType title,
         qr_errors (graphql (AllMarkdownRemark mediaType)) = None ->
         qr_allMarkdownRemark (graphql (AllMarkdownRemark mediaType)) = Some [] ->
         mediaTypeBody graphql (mediaType, title) = ([], Normal tt))
  /\ (qr_errors (graphql (AllMarkdownRemark "news")) = None ->
      qr_allMarkdownRemark (graphql (AllMarkdownRemark "news")) = Some [] ->
      newsArticles graphql = ([], Normal tt))
  /\ (forall pages,
         qr_errors (graphql AllPagesJson) = None ->
         qr_allPagesJson (graphql AllPagesJson) = Some pages ->
         (forall entry, In entry (("news", "News") :: mediaTypes) ->
                        qr_errors (graphql (AllMarkdownRemark (fst entry))) = None
                        /\ qr_allMarkdownRemark (graphql (AllMarkdownRemark (fst entry)))
                           = Some []) ->
         createPages (Some graphql) true
         = (flat_map_from staticPageEvents 0 pages, Normal tt)).
Proof.
  repeat apply conj; try reflexivity.
  - intros mediaType title He Hd.
    now rewrite (@mediaTypeBody_run graphql mediaType title [] He Hd).
  - intros He Hd. now rewrite (@newsArticles_run graphql [] He Hd).
  - intros pages Hpe Hpd Hall.
    destruct (Hall ("news", "News") (or_introl eq_refl)) as [Hne Hnd].
    assert (Hm : forall entry, In entry mediaTypes ->
                   answered (graphql (AllMarkdownRemark (fst entry))) = true).
    { intros entry Hin. unfold answered.
      destruct (Hall entry (or_intror Hin)) as [_ ->]. apply orb_true_r. }
    rewrite (@createPages_run graphql pages Hpe Hpd Hm [] Hne Hnd).
    assert (Hnone : flat_map (mediaTypeEvents graphql) mediaTypes = []).
    { rewrite (@flat_map_pointwise _ _ (mediaTypeEvents graphql)
                                   (fun _ => []) mediaTypes); [reflexivity|].
      intros [mediaType title] Hin. unfold mediaTypeEvents.
      destruct (Hall (mediaType, title) (or_intror Hin)) as [He Hd].
      cbn [fst] in He, Hd. now rewrite He, Hd. }
    rewrite Hnone. cbn [newsRoutes]. now rewrite !app_nil_r.
Qed.

Lemma no_items_no_listing_page_witness :
  let g := siteGraphql (answer []) (answer []) (answer []) in
  mediaTypeBody g ("blog", "Blog") = ([], Normal tt)
  /\ newsArticles g = ([], Normal tt)
  /\ map page_path (createdPages (trace (createPages (Some g) true))) = ["/about"].
Proof.
  intros g.
  destruct (no_items_no_listing_page g) as (_ & _ & Hmedia & Hnews & Hwhole).
  split; [|split].
  - apply Hmedia; reflexivity.
  - apply Hnews; reflexivity.
  - rewrite (Hwhole samplePages eq_refl eq_refl).
    + reflexivity.
    + intros entry [<-|[<-|[<-|[]]]]; split; reflexivity.
Defined.

(* ================================================================== *)
(** * Further properties of the hooks *)

(** ** Where the calls of a run come from *)

Lemma in_trace_bind {A B} (m : M A) (k : A -> M B) (e : Event) :
  In e (trace (bind m k)) ->
  In e (trace m) \/ exists a, completion m = Normal a /\ In e (trace (k a)).
Proof.
  destruct m as [t [a| | |err]]; cbn; auto.
  destruct (k a) as [t' c] eqn:Hk. cbn. intros H.
  apply in_app_or in H. destruct H as [H|H]; [now left|].
  right. exists a. rewrite Hk. auto.
Qed.

Lemma trace_iteration (m : M unit) : trace (iteration m) = trace m.
Proof.
  destruct m as [t [[]| | |err]]; reflexivity.
Qed.

Lemma trace_asFunction (m : M unit) : trace (asFunction m) = trace m.
Proof.
  destruct m as [t [[]| | |err]]; reflexivity.
Qed.

Lemma in_trace_forLoop (body : nat -> M unit) (e : Event) (count : nat) :
  forall lo,
    In e (trace (forLoop body lo count)) ->
    exists i, lo <= i < lo + count /\ In e (trace (body i)).
Proof.
  induction count as [|c IH]; intros lo; cbn [forLoop]; [intros []|].
  intros H. apply in_trace_bind in H. destruct H as [H | (_ & _ & H)].
  - rewrite trace_iteration in H. exists lo. split; [lia | exact H].
  - destruct (IH _ H) as (i & Hi & He). exists i. split; [lia | exact He].
Qed.

Lemma in_trace_forRange (body : nat -> M unit) (e : Event) (hi : nat) :
  In e (trace (forRange body 0 hi)) ->
  exists i, i < hi /\ In e (trace (body i)).
Proof.
  unfold forRange. rewrite Nat.sub_0_r. intros H.
  destruct (in_trace_forLoop _ _ _ _ H) as (i & Hi & He).
  exists i. split; [lia | exact He].
Qed.

Lemma in_trace_forOf {A} (body : A -> M unit) (e : Event) (xs : list A) :
  In e (trace (forOf body xs)) ->
  exists x, In x xs /\ In e (trace (body x)).
Proof.
  induction xs as [|x r IH]; cbn [forOf]; [intros []|].
  intros H. apply in_trace_bind in H. destruct H as [H | (_ & _ & H)].
  - rewrite trace_iteration in H. exists x. split; [now left | exact H].
  - destruct (IH H) as (y & Hy & He). exists y. split; [now right | exact He].
Qed.

(** ** Every page carries its own path *)

Section PageInvariant.

Variable graphql : Query -> QueryResult.

(** What holds of every page handed to [createPage]. *)
Variable P : Page -> Prop.

Hypothesis static_ok : forall link, P (staticPage link).
Hypothesis list_ok :
  forall mediaType title numPages k,
    In (mediaType, title) mediaTypes -> P (mediaListPage mediaType title numPages k).
Hypothesis item_ok :
  forall mediaType title item,
    In (mediaType, title) mediaTypes -> P (mediaItemPage mediaType item).
Hypothesis news_ok : forall numPages k, P (newsListPage numPages k).

Lemma staticPages_pages (p : Page) :
  In (CreatePage p) (trace (staticPages graphql)) -> P p.
Proof.
  unfold staticPages. intros H.
  apply in_trace_bind in H. destruct H as [H | (_ & _ & H)].
  { destruct (qr_errors (graphql AllPagesJson)); cbn in H; [|contradiction].
    destruct H as [H|[]]. discriminate. }
  apply in_trace_bind in H. destruct H as [H | (pages & _ & H)].
  { destruct (qr_allPagesJson (graphql AllPagesJson)); cbn in H; contradiction. }
  apply in_trace_forRange in H. destruct H as (i & _ & H).
  unfold staticPageBody, index in H.
  destruct (nth_error pages i) as [page|]; [|cbn in H; contradiction].
  cbn [member bind ret app] in H.
  destruct (pj_navigation page) as [[[link|]]|]; cbn in H;
    try (destruct H as [H|[]]; discriminate).
  destruct (String.eqb link ""); cbn in H; destruct H as [H|[]];
    [discriminate | injection H as <-; apply static_ok].
Qed.

Lemma mediaTypeBody_pages (entry : string * string) (p : Page) :
  In entry mediaTypes ->
  In (CreatePage p) (trace (mediaTypeBody graphql entry)) -> P p.
Proof.
  destruct entry as [mediaType title]. intros Hentry H. unfold mediaTypeBody in H.
  apply in_trace_bind in H. destruct H as [H | (_ & _ & H)].
  { destruct (qr_errors (graphql (AllMarkdownRemark mediaType))); cbn in H;
      [|contradiction].
    destruct H as [H|[]]. discriminate. }
  apply in_trace_bind in H. destruct H as [H | (results & _ & H)].
  { destruct (qr_allMarkdownRemark (graphql (AllMarkdownRemark mediaType)));
      cbn in H; contradiction. }
  apply in_trace_bind in H. destruct H as [H | (_ & _ & H)].
  - apply in_trace_forRange in H. destruct H as (i & _ & H).
    rewrite <- trace_iteration, mediaListBody_run in H.
    destruct H as [H|[]]. injection H as <-. now apply list_ok with (title := title).
  - apply in_trace_forRange in H. destruct H as (i & _ & H).
    unfold mediaItemBody, index in H.
    destruct (nth_error results i) as [item|]; [|cbn in H; contradiction].
    cbn [member bind ret app] in H.
    destruct (negb (truthy (fields_externalLink (mr_fields item)))); cbn in H;
      [|contradiction].
    destruct H as [H|[]]. injection H as <-. now apply item_ok with (title := title).
Qed.

Lemma newsArticles_pages (p : Page) :
  In (CreatePage p) (trace (newsArticles graphql)) -> P p.
Proof.
  unfold newsArticles. intros H.
  apply in_trace_bind in H. destruct H as [H | (_ & _ & H)].
  { destruct (qr_errors (graphql (AllMarkdownRemark "news"))); cbn in H;
      [|contradiction].
    destruct H as [H|[]]. discriminate. }
  apply in_trace_bind in H. destruct H as [H | (results & _ & H)].
  { destruct (qr_allMarkdownRemark (graphql (AllMarkdownRemark "news")));
      cbn in H; contradiction. }
  apply in_trace_forRange in H. destruct H as (i & _ & H).
  rewrite <- trace_iteration, newsListBody_run in H.
  destruct H as [H|[]]. injection H as <-. apply news_ok.
Qed.

(** Whatever the queries answer, every page of the hook is one of the four
    kinds. *)
Lemma createPages_pages (p : Page) :
  In (CreatePage p) (trace (createPages (Some graphql) true)) -> P p.
Proof.
  unfold createPages. cbn [negb]. rewrite trace_asFunction. unfold createPagesBody.
  intros H. apply in_trace_bind in H. destruct H as [H | (_ & _ & H)].
  { exact (@staticPages_pages p H). }
  apply in_trace_bind in H. destruct H as [H | (_ & _ & H)].
  - unfold announcementsAndBlogPosts in H. apply in_trace_forOf in H.
    destruct H as (entry & Hentry & H). exact (@mediaTypeBody_pages entry p Hentry H).
  - exact (@newsArticles_pages p H).
Qed.

End PageInvariant.

(** X1.  Whatever the queries answer, every page that [createPages] hands
    to [createPage] carries in its context, under [link], the very path it is
    created at: the two expressions the listing loops use for the path and
    for the link agree on every page index. *)
Theorem every_page_links_to_itself (graphql : Query -> QueryResult) (p : Page) :
  In (CreatePage p) (trace (createPages (Some graphql) true)) ->
  contextGet "link" (page_context p) = Some (JStr (page_path p)).
Proof.
  intros H.
  apply (@createPages_pages graphql
           (fun q => contextGet "link" (page_context q) = Some (JStr (page_path q))))
    with (p := p); try exact H; intros; reflexivity.
Qed.

Lemma every_page_links_to_itself_witness :
  contextGet "link" (page_context (mediaListPage "blog" "Blog" 2 1))
  = Some (JStr "/media/blog/2").
Proof.
  apply (@every_page_links_to_itself
           (siteGraphql (failure "down") (answer twelveBlogItems) (answer []))
           (mediaListPage "blog" "Blog" 2 1)).
  cbv. do 4 right. left. reflexivity.
Defined.

(** ** The static pages *)

Lemma in_createdPages (p : Page) (t : list Event) :
  In p (createdPages t) <-> In (CreatePage p) t.
Proof.
  unfold createdPages. rewrite in_flat_map. split.
  - intros (e & He & Hp). destruct e; try contradiction.
    destruct Hp as [<-|[]]. exact He.
  - intros H. exists (CreatePage p). split; [exact H | now left].
Qed.

Lemma filter_nothing {A} (keep : A -> bool) (xs : list A) :
  (forall x, In x xs -> keep x = false) -> filter keep xs = [].
Proof.
  induction xs as [|x r IH]; intros H; simpl; [reflexivity|].
  rewrite (H x (or_introl eq_refl)). apply IH. intros y Hy. apply H. now right.
Qed.

Lemma pagesOf_app (c : Template) (t u : list Event) :
  pagesOf c (t ++ u) = pagesOf c t ++ pagesOf c u.
Proof.
  unfold pagesOf, createdPages. now rewrite flat_map_app, filter_app.
Qed.

Lemma pagesOf_staticPageEvents (pages : list PagesJsonNode) :
  forall i,
    pagesOf StaticPageTemplate (flat_map_from staticPageEvents i pages)
    = map staticPage (staticLinks pages).
Proof.
  induction pages as [|page r IH]; intros i; [reflexivity|].
  cbn [flat_map_from staticLinks flat_map]. rewrite pagesOf_app, map_app, IH.
  f_equal. unfold staticPageEvents, navigationLink.
  destruct (pj_navigation page) as [[[link|]]|]; try reflexivity.
  cbn [nav_link]. destruct (String.eqb link ""); reflexivity.
Qed.

Lemma flat_map_from_nth {A B} (f : nat -> A -> list B) (xs : list A) (b : B) :
  forall i j x,
    nth_error xs j = Some x -> In b (f (i + j) x) -> In b (flat_map_from f i xs).
Proof.
  induction xs as [|y r IH]; intros i [|j] x; cbn; try discriminate.
  - intros [= ->]. rewrite Nat.add_0_r. intros H. apply in_or_app. now left.
  - intros Hx Hb. apply in_or_app. right.
    apply (IH (S i) j x Hx). now rewrite Nat.add_succ_comm.
Qed.

Lemma in_diagnostics_warn (args : list string) (t : list Event) :
  In (ConsoleWarn args) t -> In args (diagnostics t).
Proof.
  intros H. unfold diagnostics. apply in_flat_map.
  exists (ConsoleWarn args). split; [exact H | now left].
Qed.

(** X2.  When the static-page query answers with a page list, the static
    pages created are, in order, one per page that has a non-empty navigation
    link, at that link and with the static-page template, whatever the later
    queries answer, even when they fail; every page without such a link is
    skipped with a warning that names its position. *)
Theorem static_pages_follow_navigation_links
        (graphql : Query -> QueryResult) (pages : list PagesJsonNode) :
  qr_errors (graphql AllPagesJson) = None ->
  qr_allPagesJson (graphql AllPagesJson) = Some pages ->
  pagesOf StaticPageTemplate (trace (createPages (Some graphql) true))
  = map staticPage (staticLinks pages)
  /\ (forall i page,
         nth_error pages i = Some page ->
         navigationLink page = None ->
         In ["Page " ^^ String_of_nat i ^^ " is missing navigation link, skipping"]
            (diagnostics (trace (createPages (Some graphql) true)))).
Proof.
  intros He Hd.
  assert (Hrun : exists rest,
             trace (createPages (Some graphql) true)
             = flat_map_from staticPageEvents 0 pages ++ rest
             /\ forall p, In (CreatePage p) rest ->
                          page_component p <> StaticPageTemplate).
  { unfold createPages, createPagesBody. cbn [negb]. rewrite trace_asFunction.
    rewrite (@staticPages_run graphql pages He Hd). unfold bind at 1.
    destruct (announcementsAndBlogPosts graphql ;; newsArticles graphql)
      as [rest c] eqn:Hrest.
    exists rest. split; [reflexivity|].
    intros p Hp. change rest with (trace (rest, c)) in Hp. rewrite <- Hrest in Hp.
    apply in_trace_bind in Hp. destruct Hp as [Hp | (_ & _ & Hp)].
    - unfold announcementsAndBlogPosts in Hp. apply in_trace_forOf in Hp.
      destruct Hp as (entry & Hentry & Hp). revert Hp.
      apply (@mediaTypeBody_pages graphql
               (fun p => page_component p <> StaticPageTemplate));
        try assumption; intros; discriminate.
    - revert Hp.
      apply (@newsArticles_pages graphql
               (fun p => page_component p <> StaticPageTemplate)).
      intros; discriminate. }
  destruct Hrun as (rest & -> & Hrest). split.
  - rewrite pagesOf_app, pagesOf_staticPageEvents.
    replace (pagesOf StaticPageTemplate rest) with (@nil Page);
      [now rewrite app_nil_r|].
    symmetry. apply filter_nothing. intros p Hp.
    apply in_createdPages in Hp. specialize (Hrest p Hp).
    destruct (page_component p); try reflexivity. now elim Hrest.
  - intros i page Hi Hlink. apply in_diagnostics_warn, in_or_app. left.
    apply (@flat_map_from_nth _ _ staticPageEvents pages _ 0 i page Hi).
    cbn [Nat.add]. unfold staticPageEvents. unfold navigationLink in Hlink.
    destruct (pj_navigation page) as [[[link|]]|]; try (now left).
    cbn [nav_link] in Hlink.
    destruct (String.eqb link ""); [now left | discriminate].
Qed.

Lemma static_pages_follow_navigation_links_witness :
  let run := createPages
               (Some (siteGraphql (failure "down") (failure "down") (failure "down")))
               true in
  map page_path (pagesOf StaticPageTemplate (trace run)) = ["/about"]
  /\ In ["Page 1 is missing navigation link, skipping"] (diagnostics (trace run)).
Proof.
  intros run.
  destruct (@static_pages_follow_navigation_links
              (siteGraphql (failure "down") (failure "down") (failure "down"))
              samplePages eq_refl eq_refl) as [Hpages Hskipped].
  split.
  - unfold run. rewrite Hpages. reflexivity.
  - apply (Hskipped 1 {| pj_navigation := None |}); reflexivity.
Defined.

(** ** Listing pages: numbering, windows and paths *)

Lemma String_of_nat_inj (n m : nat) : String_of_nat n = String_of_nat m -> n = m.
Proof.
  unfold String_of_nat. intros H. apply Unsigned.to_uint_inj.
  assert (Hs : Some (Nat.to_uint n) = Some (Nat.to_uint m))
    by (rewrite <- !NilEmpty.usu, H; reflexivity).
  now injection Hs.
Qed.

Lemma append_not_longer (a : string) (c : ascii) (s : string) : a <> a ^^ String c s.
Proof.
  intros H. rewrite <- (append_empty_r a) in H at 1.
  apply append_cancel_l in H. discriminate.
Qed.

Lemma listingPath_inj (base : string) (k k' : nat) :
  listingPath base k = listingPath base k' -> k = k'.
Proof.
  unfold listingPath. destruct k as [|k], k' as [|k']; intros H.
  - reflexivity.
  - elim (@append_not_longer base "/" (String_of_nat (S k' + 1)) H).
  - elim (@append_not_longer base "/" (String_of_nat (S k + 1)) (eq_sym H)).
  - apply append_cancel_l in H. apply (append_cancel_l "/") in H.
    apply String_of_nat_inj in H. lia.
Qed.

Lemma NoDup_app_disjoint {A} (l l' : list A) (a : A) :
  NoDup (l ++ l') -> In a l -> In a l' -> False.
Proof.
  induction l as [|x r IH]; simpl; [contradiction|].
  intros Hn [->|Hin] Hin'.
  - inversion Hn as [|? ? Hnot _]; subst. apply Hnot, in_or_app. now right.
  - inversion Hn; subst. now apply IH.
Qed.

Lemma nth_error_map_seq_inv {B} (f : nat -> B) (n k : nat) (b : B) :
  nth_error (map f (seq 0 n)) k = Some b -> k < n /\ b = f k.
Proof.
  intros H. assert (Hk : k < n).
  { assert (Hsome : nth_error (map f (seq 0 n)) k <> None) by congruence.
    apply nth_error_Some in Hsome. now rewrite length_map, length_seq in Hsome. }
  split; [exact Hk|]. rewrite (nth_error_map_seq f Hk) in H. now injection H.
Qed.

Lemma page_of_index (n size k : nat) :
  0 < size -> k < Math_ceil_div n size -> k * size < n.
Proof.
  intros Hs Hk. pose proof (Math_ceil_div_bounds n Hs). nia.
Qed.

Lemma index_on_page (n size j : nat) :
  0 < size -> j < n -> j / size < Math_ceil_div n size.
Proof.
  intros Hs Hj. pose proof (Math_ceil_div_bounds n Hs).
  pose proof (Nat.div_mod_eq j size).
  pose proof (Nat.mod_upper_bound j size ltac:(lia)). nia.
Qed.

(** X3.  The listing pages of a media type (ten items a page) and of the
    news (fifteen) are numbered: page [k] carries [skip = k * P],
    [currentPage = k + 1] and [numPages] equal to the number of listing pages
    created.  No listing page is empty ([skip] is below the number of items),
    and every item position [j] falls in the window of page [j / P], which is
    created. *)
Theorem listing_windows_cover_results (graphql : Query -> QueryResult) :
  (forall mediaType title results,
      qr_errors (graphql (AllMarkdownRemark mediaType)) = None ->
      qr_allMarkdownRemark (graphql (AllMarkdownRemark mediaType)) = Some results ->
      let listing :=
        pagesOf MediaListTemplate (trace (mediaTypeBody graphql (mediaType, title))) in
      (forall k p,
          nth_error listing k = Some p ->
          contextGet "skip" (page_context p) = Some (JNat (k * 10))
          /\ contextGet "currentPage" (page_context p) = Some (JNat (k + 1))
          /\ contextGet "numPages" (page_context p) = Some (JNat (List.length listing))
          /\ k * 10 < List.length results)
      /\ (forall j,
             j < List.length results ->
             exists p, nth_error listing (j / 10) = Some p
                       /\ (j / 10) * 10 <= j < (j / 10) * 10 + 10))
  /\ (forall results,
         qr_errors (graphql (AllMarkdownRemark "news")) = None ->
         qr_allMarkdownRemark (graphql (AllMarkdownRemark "news")) = Some results ->
         let listing := pagesOf NewsListTemplate (trace (newsArticles graphql)) in
         (forall k p,
             nth_error listing k = Some p ->
             contextGet "skip" (page_context p) = Some (JNat (k * 15))
             /\ contextGet "currentPage" (page_context p) = Some (JNat (k + 1))
             /\ contextGet "numPages" (page_context p) = Some (JNat (List.length listing))
             /\ k * 15 < List.length results)
         /\ (forall j,
                j < List.length results ->
                exists p, nth_error listing (j / 15) = Some p
                          /\ (j / 15) * 15 <= j < (j / 15) * 15 + 15)).
Proof.
  split.
  - intros mediaType title results He Hd listing. unfold listing.
    rewrite (@mediaTypeBody_run graphql mediaType title results He Hd).
    unfold trace, fst. rewrite pagesOf_mediaRoutes_listing.
    rewrite length_map, length_seq. unfold pageSize. split.
    + intros k p Hp. apply nth_error_map_seq_inv in Hp. destruct Hp as [Hk ->].
      repeat split. apply page_of_index; [lia | exact Hk].
    + intros j Hj. eexists. split.
      * apply nth_error_map_seq. apply index_on_page; [lia | exact Hj].
      * pose proof (Nat.div_mod_eq j 10).
        pose proof (Nat.mod_upper_bound j 10 ltac:(lia)). lia.
  - intros results He Hd listing. unfold listing.
    rewrite (@newsArticles_run graphql results He Hd).
    unfold trace, fst. rewrite pagesOf_newsRoutes.
    rewrite length_map, length_seq. split.
    + intros k p Hp. apply nth_error_map_seq_inv in Hp. destruct Hp as [Hk ->].
      repeat split. apply page_of_index; [lia | exact Hk].
    + intros j Hj. eexists. split.
      * apply nth_error_map_seq. apply index_on_page; [lia | exact Hj].
      * pose proof (Nat.div_mod_eq j 15).
        pose proof (Nat.mod_upper_bound j 15 ltac:(lia)). lia.
Qed.

Lemma listing_windows_cover_results_witness :
  let g := siteGraphql (failure "down") (answer twelveBlogItems) (answer twelveBlogItems) in
  (exists p,
      nth_error (pagesOf MediaListTemplate (trace (mediaTypeBody g ("blog", "Blog"))))
                (11 / 10) = Some p
      /\ (11 / 10) * 10 <= 11 < (11 / 10) * 10 + 10)
  /\ (exists p,
         nth_error (pagesOf NewsListTemplate (trace (newsArticles g))) (11 / 15) = Some p
         /\ (11 / 15) * 15 <= 11 < (11 / 15) * 15 + 15).
Proof.
  intros g. split.
  - apply (proj2 (proj1 (listing_windows_cover_results g) "blog" "Blog"
                        twelveBlogItems eq_refl eq_refl) 11).
    cbn. lia.
  - apply (proj2 (proj2 (listing_windows_cover_results g)
                        twelveBlogItems eq_refl eq_refl) 11).
    cbn. lia.
Defined.

(** X4.  The listing pages of a media type are created at pairwise different
    paths, and so are those of the news: the page numbers print
    differently, and no numbered path equals the base path. *)
Theorem listing_paths_are_distinct (graphql : Query -> QueryResult) :
  (forall mediaType title results,
      qr_errors (graphql (AllMarkdownRemark mediaType)) = None ->
      qr_allMarkdownRemark (graphql (AllMarkdownRemark mediaType)) = Some results ->
      NoDup (map page_path
                 (pagesOf MediaListTemplate
                          (trace (mediaTypeBody graphql (mediaType, title))))))
  /\ (forall results,
         qr_errors (graphql (AllMarkdownRemark "news")) = None ->
         qr_allMarkdownRemark (graphql (AllMarkdownRemark "news")) = Some results ->
         NoDup (map page_path (pagesOf NewsListTemplate (trace (newsArticles graphql))))).
Proof.
  split.
  - intros mediaType title results He Hd.
    rewrite (@mediaTypeBody_run graphql mediaType title results He Hd).
    unfold trace, fst. rewrite pagesOf_mediaRoutes_listing, map_map.
    apply NoDup_map_NoDup_ForallPairs; [|apply seq_NoDup].
    intros k k' _ _ H. exact (listingPath_inj _ _ _ H).
  - intros results He Hd.
    rewrite (@newsArticles_run graphql results He Hd).
    unfold trace, fst. rewrite pagesOf_newsRoutes, map_map.
    apply NoDup_map_NoDup_ForallPairs; [|apply seq_NoDup].
    intros k k' _ _ H. exact (listingPath_inj _ _ _ H).
Qed.

Lemma listing_paths_are_distinct_witness :
  let g := siteGraphql (failure "down") (answer twelveBlogItems) (answer twelveBlogItems) in
  NoDup (map page_path
             (pagesOf MediaListTemplate (trace (mediaTypeBody g ("blog", "Blog")))))
  /\ NoDup (map page_path (pagesOf NewsListTemplate (trace (newsArticles g)))).
Proof.
  intros g. split.
  - apply (proj1 (listing_paths_are_distinct g) "blog" "Blog" twelveBlogItems);
      reflexivity.
  - apply (proj2 (listing_paths_are_distinct g) twelveBlogItems); reflexivity.
Defined.

(** X5.  Item pages and listing pages share the path space
    [/media/{type}/...]: when an item without an external link has for slug
    the decimal number of a listing page after the first, its item page is
    created at the path of that listing page. *)
Theorem item_slug_can_take_a_listing_path
        (graphql : Query -> QueryResult) (mediaType title : string)
        (results : list MarkdownRemarkNode) (item : MarkdownRemarkNode) (k : nat) :
  qr_errors (graphql (AllMarkdownRemark mediaType)) = None ->
  qr_allMarkdownRemark (graphql (AllMarkdownRemark mediaType)) = Some results ->
  In item results ->
  carriesExternalLink item = false ->
  0 < k < Math_ceil_div (List.length results) pageSize ->
  fields_slug (mr_fields item) = String_of_nat (k + 1) ->
  let t := trace (mediaTypeBody graphql (mediaType, title)) in
  exists listing detail,
    In listing (pagesOf MediaListTemplate t)
    /\ In detail (pagesOf MediaPageTemplate t)
    /\ page_path listing = page_path detail
    /\ ~ NoDup (map page_path (createdPages t)).
Proof.
  intros He Hd Hin Hlink Hk Hslug t. unfold t.
  rewrite (@mediaTypeBody_run graphql mediaType title results He Hd).
  unfold trace, fst.
  rewrite pagesOf_mediaRoutes_listing, pagesOf_mediaRoutes_items, createdPages_CreatePage.
  set (numPages := Math_ceil_div (List.length results) pageSize) in *.
  assert (Hl : In (mediaListPage mediaType title numPages k)
                  (map (mediaListPage mediaType title numPages) (seq 0 numPages))).
  { apply in_map, in_seq. lia. }
  assert (Hi : In (mediaItemPage mediaType item)
                  (map (mediaItemPage mediaType)
                       (filter (fun i => negb (carriesExternalLink i)) results))).
  { apply in_map, filter_In. split; [exact Hin | now rewrite Hlink]. }
  assert (Hpath : page_path (mediaListPage mediaType title numPages k)
                  = page_path (mediaItemPage mediaType item)).
  { cbn [page_path mediaListPage mediaItemPage]. rewrite Hslug.
    destruct k as [|k]; [lia|]. unfold listingPath. now rewrite !append_assoc. }
  exists (mediaListPage mediaType title numPages k), (mediaItemPage mediaType item).
  repeat split; try assumption.
  intros Hnodup. unfold mediaRoutes in Hnodup. fold numPages in Hnodup.
  rewrite map_app in Hnodup.
  apply (NoDup_app_disjoint _ _ (page_path (mediaListPage mediaType title numPages k))
                            Hnodup).
  - now apply in_map.
  - rewrite Hpath. now apply in_map.
Qed.

Lemma item_slug_can_take_a_listing_path_witness :
  let t := trace (mediaTypeBody (siteGraphql (failure "down") (answer elevenItems)
                                             (answer []))
                                ("blog", "Blog")) in
  exists listing detail,
    In listing (pagesOf MediaListTemplate t)
    /\ In detail (pagesOf MediaPageTemplate t)
    /\ page_path listing = page_path detail
    /\ ~ NoDup (map page_path (createdPages t)).
Proof.
  apply (@item_slug_can_take_a_listing_path
           (siteGraphql (failure "down") (answer elevenItems) (answer []))
           "blog" "Blog" elevenItems pageTwoItem 1).
  - reflexivity.
  - reflexivity.
  - left. reflexivity.
  - reflexivity.
  - cbn. lia.
  - reflexivity.
Defined.

(* ------------------------------------------------------------------ *)
(** ** Further properties of the node hook *)

Section HookObservations.

Variable getNode : option string -> option FileNode.
Variable createNodeId : string -> string.
Variable createContentDigest : string -> string.
Variable loadNodeContent : Node -> string + string.
Variable optimize : string -> string + string.
Variable node : Node.

Local Abbreviation hook :=
  (onCreateNode getNode createNodeId createContentDigest loadNodeContent optimize).

Lemma createdNodes_app (t u : list Event) :
  createdNodes (t ++ u) = createdNodes t ++ createdNodes u.
Proof. apply flat_map_app. Qed.

Lemma parentChildLinks_app (t u : list Event) :
  parentChildLinks (t ++ u) = parentChildLinks t ++ parentChildLinks u.
Proof. apply flat_map_app. Qed.

Lemma createdMdNodes_app (t u : list Event) :
  createdMdNodes (t ++ u) = createdMdNodes t ++ createdMdNodes u.
Proof. apply flat_map_app. Qed.

Lemma createdSvgNodes_app (t u : list Event) :
  createdSvgNodes (t ++ u) = createdSvgNodes t ++ createdSvgNodes u.
Proof. apply flat_map_app. Qed.

Lemma diagnostics_app (t u : list Event) :
  diagnostics (t ++ u) = diagnostics t ++ diagnostics u.
Proof. apply flat_map_app. Qed.

Lemma createdNodes_fieldEvents (path : string) (fs : list (list string * string)) :
  createdNodes (flat_map (fieldEvents createNodeId createContentDigest node path) fs)
  = map (fun f => OfMd (markdownNode createNodeId createContentDigest node path f)) fs.
Proof.
  induction fs as [|f r IH]; [reflexivity|].
  cbn [flat_map map]. rewrite createdNodes_app, IH. reflexivity.
Qed.

Lemma parentChildLinks_fieldEvents (path : string) (fs : list (list string * string)) :
  parentChildLinks
    (flat_map (fieldEvents createNodeId createContentDigest node path) fs)
  = map (fun f => (node_id node,
                   md_id (markdownNode createNodeId createContentDigest node path f)))
        fs.
Proof.
  induction fs as [|f r IH]; [reflexivity|].
  cbn [flat_map map]. rewrite parentChildLinks_app, IH. reflexivity.
Qed.

(** The three steps, read for the nodes they create and the links they
    make. *)
Lemma createdNodes_markdownEvents :
  Forall (fun n => newNodeParent n = node_id node)
         (createdNodes (markdownEvents createNodeId createContentDigest node))
  /\ parentChildLinks (markdownEvents createNodeId createContentDigest node)
     = map (fun n => (node_id node, newNodeId n))
           (createdNodes (markdownEvents createNodeId createContentDigest node)).
Proof.
  unfold markdownEvents.
  destruct (String.eqb _ _); [|split; [constructor | reflexivity]].
  rewrite createdNodes_fieldEvents, parentChildLinks_fieldEvents, map_map.
  split; [|reflexivity].
  apply Forall_forall. intros n Hn. apply in_map_iff in Hn.
  destruct Hn as (f & <- & _). reflexivity.
Qed.

Lemma createdNodes_svgEvents :
  Forall (fun n => newNodeParent n = node_id node)
         (createdNodes (svgEvents createNodeId createContentDigest
                                  loadNodeContent optimize node))
  /\ parentChildLinks (svgEvents createNodeId createContentDigest
                                 loadNodeContent optimize node)
     = map (fun n => (node_id node, newNodeId n))
           (createdNodes (svgEvents createNodeId createContentDigest
                                    loadNodeContent optimize node)).
Proof.
  unfold svgEvents.
  destruct (isSvg node); [|split; [constructor | reflexivity]].
  destruct (loadNodeContent node) as [e|c]; [split; [constructor | reflexivity]|].
  destruct (String.eqb c ""); [split; [constructor | reflexivity]|].
  destruct (optimize c); split; repeat constructor.
Qed.

Lemma createdNodes_slugEvents :
  createdNodes (slugEvents getNode node) = []
  /\ parentChildLinks (slugEvents getNode node) = [].
Proof.
  unfold slugEvents.
  destruct (includes _ _); [|split; reflexivity].
  destruct (getNode _); split; reflexivity.
Qed.

End HookObservations.

(** X6.  Every node that a call of the hook creates is a child of the node
    being processed: its [parent] is that node's id, and the calls of
    [createParentChildLink] are, in order, one per created node, from the
    processed node to the created one. *)
Theorem created_nodes_are_linked_children
        (getNode : option string -> option FileNode)
        (createNodeId createContentDigest : string -> string)
        (loadNodeContent : Node -> string + string)
        (optimize : string -> string + string)
        (node : Node) :
  let t := trace (onCreateNode getNode createNodeId createContentDigest
                               loadNodeContent optimize (Some node) true) in
  Forall (fun n => newNodeParent n = node_id node) (createdNodes t)
  /\ parentChildLinks t
     = map (fun n => (node_id node, newNodeId n)) (createdNodes t).
Proof.
  intros t. unfold t. rewrite onCreateNode_run. unfold trace, fst, onCreateNodeEvents.
  destruct (createdNodes_slugEvents getNode node) as [Hs Hsl].
  destruct (createdNodes_markdownEvents createNodeId createContentDigest node)
    as [Hm Hml].
  destruct (createdNodes_svgEvents createNodeId createContentDigest
                                   loadNodeContent optimize node) as [Hv Hvl].
  destruct (parentMissing getNode node).
  - rewrite Hs, Hsl. split; [constructor | reflexivity].
  - rewrite !createdNodes_app, !parentChildLinks_app, Hs, Hsl, Hml, Hvl, !map_app.
    split; [|reflexivity].
    apply Forall_app. split; [constructor|]. apply Forall_app. split; assumption.
Qed.

(** X7.  For a node with the SVG media type whose content loads non-empty
    and whose optimization succeeds (and whose parent, if the node is of a
    type to slug, resolves), the hook creates exactly one inline SVG node: its
    id is made from the node's id, its markup is the optimizer's output, not
    the loaded content, its digest is the digest of that output, and its
    parent is the node.  Nothing is logged. *)
Theorem svg_is_inlined_optimized
        (getNode : option string -> option FileNode)
        (createNodeId createContentDigest : string -> string)
        (loadNodeContent : Node -> string + string)
        (optimize : string -> string + string)
        (node : Node) (fileContent rawSvg : string) :
  internal_mediaType (node_internal node) = Some "image/svg+xml" ->
  parentMissing getNode node = false ->
  loadNodeContent node = inr fileContent ->
  fileContent <> "" ->
  optimize fileContent = inr rawSvg ->
  let t := trace (onCreateNode getNode createNodeId createContentDigest
                               loadNodeContent optimize (Some node) true) in
  createdSvgNodes t
  = [{| svg_id := createNodeId (node_id node);
        svg_children := [];
        svg_rawSvg := rawSvg;
        svg_parent := node_id node;
        svg_type := "InlineSvg";
        svg_contentDigest := createContentDigest rawSvg |}]
  /\ diagnostics t = [].
Proof.
  intros Hsvg Hparent Hload Hne Hopt t. unfold t.
  rewrite onCreateNode_run. unfold trace, fst, onCreateNodeEvents.
  rewrite Hparent.
  assert (Hevents : svgEvents createNodeId createContentDigest
                              loadNodeContent optimize node
                    = [CreateNode (OfSvg {|
                         svg_id := createNodeId (node_id node);
                         svg_children := [];
                         svg_rawSvg := rawSvg;
                         svg_parent := node_id node;
                         svg_type := "InlineSvg";
                         svg_contentDigest := createContentDigest rawSvg |});
                       CreateParentChildLink (node_id node)
                                             (createNodeId (node_id node))]).
  { unfold svgEvents, isSvg. rewrite Hsvg, Hload.
    apply String.eqb_neq in Hne. rewrite Hne, Hopt. reflexivity. }
  rewrite Hevents, !createdSvgNodes_app, !diagnostics_app.
  rewrite createdSvgNodes_slugEvents, createdSvgNodes_markdownEvents. split.
  - reflexivity.
  - assert (Hslug : diagnostics (slugEvents getNode node) = []).
    { unfold parentMissing in Hparent. unfold slugEvents.
      destruct (includes _ _); [|reflexivity].
      destruct (getNode _); [reflexivity | discriminate]. }
    assert (Hmd : diagnostics (markdownEvents createNodeId createContentDigest node)
                  = []).
    { unfold markdownEvents.
      destruct (String.eqb _ _); [apply diagnostics_fieldEvents | reflexivity]. }
    now rewrite Hslug, Hmd.
Qed.

Lemma svg_is_inlined_optimized_witness :
  map svg_rawSvg
      (createdSvgNodes
         (trace (onCreateNode resolveNone identityDigest checksumDigest
                              loadCircle optimizeKeeps (Some svgFile) true)))
  = ["<svg><circle/></svg>"].
Proof.
  destruct (@svg_is_inlined_optimized resolveNone identityDigest checksumDigest
              loadCircle optimizeKeeps svgFile "<svg><circle/></svg>"
              "<svg><circle/></svg>" eq_refl eq_refl eq_refl
              ltac:(discriminate) eq_refl) as [Hnodes _].
  rewrite Hnodes. reflexivity.
Defined.

(** X8.  The markdown fields are extracted from [PagesJson] nodes only: for
    a node of any other type no markdown node is created, whatever its
    payload holds.  A node that is neither of a type to slug nor an SVG
    image goes through the hook without a single call. *)
Theorem only_PagesJson_nodes_are_scanned
        (getNode : option string -> option FileNode)
        (createNodeId createContentDigest : string -> string)
        (loadNodeContent : Node -> string + string)
        (optimize : string -> string + string)
        (node : Node) :
  let run := onCreateNode getNode createNodeId createContentDigest
                          loadNodeContent optimize (Some node) true in
  (internal_type (node_internal node) <> "PagesJson" ->
   createdMdNodes (trace run) = [])
  /\ (includes typesToSlug (internal_type (node_internal node)) = false ->
      internal_mediaType (node_internal node) <> Some "image/svg+xml" ->
      run = ([], Normal tt)).
Proof.
  intros run. unfold run. rewrite onCreateNode_run.
  unfold trace, fst, onCreateNodeEvents. split.
  - intros Htype. apply String.eqb_neq in Htype.
    assert (Hmd : markdownEvents createNodeId createContentDigest node = []).
    { unfold markdownEvents. now rewrite Htype. }
    assert (Hslug : createdMdNodes (slugEvents getNode node) = []).
    { unfold slugEvents. destruct (includes _ _); [|reflexivity].
      destruct (getNode _); reflexivity. }
    assert (Hsvg : createdMdNodes
                     (svgEvents createNodeId createContentDigest
                                loadNodeContent optimize node) = []).
    { unfold svgEvents. destruct (isSvg node); [|reflexivity].
      destruct (loadNodeContent node) as [e|c]; [reflexivity|].
      destruct (String.eqb c ""); [reflexivity|].
      destruct (optimize c); reflexivity. }
    destruct (parentMissing getNode node); [exact Hslug|].
    now rewrite !createdMdNodes_app, Hmd, Hslug, Hsvg.
  - intros Htype Hmedia.
    unfold parentMissing, slugEvents, markdownEvents, svgEvents, isSvg.
    rewrite Htype. cbn [andb app].
    assert (Hpj : String.eqb (internal_type (node_internal node)) "PagesJson" = false).
    { unfold includes, typesToSlug in Htype. cbn [existsb] in Htype.
      apply orb_false_elim in Htype. destruct Htype as [_ Htype].
      apply orb_false_elim in Htype. now destruct Htype as [Htype _]. }
    rewrite Hpj. cbn [app].
    destruct (internal_mediaType (node_internal node)) as [m|]; [|reflexivity].
    destruct (String.eqb_spec m "image/svg+xml") as [->|_]; [congruence | reflexivity].
Qed.

Lemma only_PagesJson_nodes_are_scanned_witness :
  let png := {| node_id := "photo";
                node_parent := None;
                node_internal := {| internal_type := "File";
                                    internal_mediaType := Some "image/png";
                                    internal_rest := [] |};
                node_rest := [("mdCaption", JStr "a photo")] |} in
  onCreateNode resolveAll identityDigest checksumDigest loadCircle optimizeKeeps
               (Some png) true
  = ([], Normal tt).
Proof.
  intros png.
  apply (proj2 (@only_PagesJson_nodes_are_scanned resolveAll identityDigest
                  checksumDigest loadCircle optimizeKeeps png)).
  - reflexivity.
  - discriminate.
Defined.

(* ------------------------------------------------------------------ *)
(** ** When the identifiers of one node's children are all different *)

Lemma hasUnderscore_digits (d : Decimal.uint) :
  hasUnderscore (NilEmpty.string_of_uint d) = false.
Proof.
  induction d; simpl; auto.
Qed.

Lemma hasUnderscore_String_of_nat (n : nat) : hasUnderscore (String_of_nat n) = false.
Proof.
  apply hasUnderscore_digits.
Qed.

Lemma distinctKeys_NoDup (ks : list string) : distinctKeys ks = true -> NoDup ks.
Proof.
  induction ks as [|k r IH]; simpl; intros H; constructor.
  - apply andb_prop in H. destruct H as [H _]. apply negb_true_iff in H.
    intros Hin. assert (Hex : existsb (String.eqb k) r = true).
    { apply existsb_exists. exists k. split; [exact Hin | apply String.eqb_refl]. }
    congruence.
  - apply andb_prop in H. apply IH, H.
Qed.

(** Fields grouped under keys: when the keys differ from group to group and
    every key path of a group starts with the key of its group, key paths
    that differ inside each group differ throughout. *)
Lemma NoDup_grouped {A} (key : A -> string)
      (body : A -> list (list string * string)) (groups : list A) :
  NoDup (map key groups) ->
  (forall a, In a groups ->
             NoDup (map fst (body a))
             /\ forall f, In f (body a) -> exists r, fst f = key a :: r) ->
  NoDup (map fst (flat_map body groups)).
Proof.
  induction groups as [|a r IH]; intros Hkeys Hbody; [constructor|].
  cbn [flat_map]. rewrite map_app. inversion Hkeys as [|? ? Hnot Hrest]; subst.
  apply NoDup_app.
  - apply (Hbody a). now left.
  - apply IH; [exact Hrest|]. intros b Hb. apply Hbody. now right.
  - intros ks Hhere Hthere.
    apply in_map_iff in Hhere. destruct Hhere as (f & <- & Hf).
    apply in_map_iff in Hthere. destruct Hthere as (g & Heq & Hg).
    apply in_flat_map in Hg. destruct Hg as (b & Hb & Hg).
    destruct (proj2 (Hbody a (or_introl eq_refl)) f Hf) as (r1 & H1).
    destruct (proj2 (Hbody b (or_intror Hb)) g Hg) as (r2 & H2).
    rewrite H1, H2 in Heq. injection Heq as Hkey _.
    apply Hnot. rewrite <- Hkey. now apply in_map.
Qed.

Lemma fieldOf_heads (k : string) (x : JsValue) (nested : list (list string * string))
      (f : list string * string) :
  In f (fieldOf k x nested) -> exists r, fst f = k :: r.
Proof.
  destruct x; simpl; try contradiction.
  - destruct (startsWith k "md"); simpl; [|contradiction].
    intros [<-|[]]. now exists [].
  - rewrite in_map_iff. intros (g & <- & _). now exists (fst g).
  - rewrite in_map_iff. intros (g & <- & _). now exists (fst g).
Qed.

Lemma fieldOf_NoDup (k : string) (x : JsValue) (nested : list (list string * string)) :
  NoDup (map fst nested) -> NoDup (map fst (fieldOf k x nested)).
Proof.
  intros Hn.
  assert (Hcons : NoDup (map fst (map (fun f : list string * string =>
                                         (k :: fst f, snd f)) nested))).
  { rewrite map_map. cbn [fst]. rewrite <- (map_map fst (cons k)).
    apply NoDup_map_NoDup_ForallPairs; [|exact Hn].
    intros a b _ _ H. now injection H. }
  destruct x; simpl; try constructor; try exact Hcons.
  destruct (startsWith k "md"); simpl; repeat constructor. intros [].
Qed.

Lemma fieldOf_clean (k : string) (x : JsValue) (nested : list (list string * string)) :
  hasUnderscore k = false ->
  (forall g, In g nested -> Forall (fun k => hasUnderscore k = false) (fst g)) ->
  forall f, In f (fieldOf k x nested) ->
            Forall (fun k => hasUnderscore k = false) (fst f).
Proof.
  intros Hk Hnested f. destruct x; simpl; try contradiction.
  - destruct (startsWith k "md"); simpl; [|contradiction].
    intros [<-|[]]. repeat constructor. exact Hk.
  - rewrite in_map_iff. intros (g & <- & Hg). constructor; [exact Hk | auto].
  - rewrite in_map_iff. intros (g & <- & Hg). constructor; [exact Hk | auto].
Qed.

Lemma flat_map_from_combine {A B} (f : nat -> A -> list B) (xs : list A) :
  forall i,
    flat_map_from f i xs
    = flat_map (fun p : nat * A => f (fst p) (snd p))
               (combine (seq i (List.length xs)) xs).
Proof.
  induction xs as [|x r IH]; intros i; [reflexivity|].
  cbn. now rewrite IH.
Qed.

Lemma in_combine_seq {A} (xs : list A) (j : nat) (x : A) :
  forall i, In (j, x) (combine (seq i (List.length xs)) xs) -> i <= j /\ In x xs.
Proof.
  induction xs as [|y r IH]; intros i; cbn; [contradiction|].
  intros [[= <- <-] | H]; [split; [lia | now left]|].
  destruct (IH _ H) as [Hle Hin]. split; [lia | now right].
Qed.

Lemma index_keys_NoDup {A} (xs : list A) :
  forall i,
    NoDup (map (fun p : nat * A => String_of_nat (fst p))
               (combine (seq i (List.length xs)) xs)).
Proof.
  induction xs as [|x r IH]; intros i; cbn; constructor; [|apply IH].
  intros Hin. apply in_map_iff in Hin. destruct Hin as ([j y] & Heq & Hin).
  apply String_of_nat_inj in Heq. cbn in Heq. subst j.
  apply in_combine_seq in Hin. lia.
Qed.

(** In a well-keyed value the markdown fields have pairwise different key
    paths, and no key of a path contains an underscore. *)
Lemma markdownFields_wellKeyed (v : JsValue) :
  wellKeyed v = true ->
  NoDup (map fst (markdownFields v))
  /\ forall f, In f (markdownFields v) ->
               Forall (fun k => hasUnderscore k = false) (fst f).
Proof.
  induction v as [ | | b | z | s | xs IH | es IH] using JsValue_nested_ind;
    intros Hwell; try (split; [constructor | intros f []]).
  - cbn [wellKeyed] in Hwell. rewrite forallb_forall in Hwell.
    rewrite Forall_forall in IH.
    cbn [markdownFields]. rewrite flat_map_from_combine. split.
    + apply (NoDup_grouped (fun p : nat * JsValue => String_of_nat (fst p)));
        [apply index_keys_NoDup|].
      intros [j x] Hin. apply in_combine_seq in Hin. destruct Hin as [_ Hin].
      cbn [fst snd]. split.
      * apply fieldOf_NoDup. apply (IH x Hin), Hwell, Hin.
      * intros f. apply fieldOf_heads.
    + intros f Hf. apply in_flat_map in Hf. destruct Hf as ([j x] & Hin & Hf).
      apply in_combine_seq in Hin. destruct Hin as [_ Hin]. cbn [fst snd] in Hf.
      revert f Hf. apply fieldOf_clean; [apply hasUnderscore_String_of_nat|].
      apply (IH x Hin), Hwell, Hin.
  - cbn [wellKeyed] in Hwell. apply andb_prop in Hwell.
    destruct Hwell as [Hkeys Hwell]. rewrite forallb_forall in Hwell.
    rewrite Forall_forall in IH. apply distinctKeys_NoDup in Hkeys.
    assert (Hentry : forall k x, In (k, x) es ->
                                 hasUnderscore k = false /\ wellKeyed x = true).
    { intros k x Hin. specialize (Hwell (k, x) Hin). cbn in Hwell.
      apply andb_prop in Hwell. destruct Hwell as [Hk Hx].
      split; [now apply negb_true_iff | exact Hx]. }
    cbn [markdownFields]. split.
    + apply (NoDup_grouped fst); [exact Hkeys|].
      intros [k x] Hin. cbn [fst]. split.
      * apply fieldOf_NoDup. apply (IH (k, x) Hin), (Hentry k x Hin).
      * intros f. apply fieldOf_heads.
    + intros f Hf. apply in_flat_map in Hf. destruct Hf as ([k x] & Hin & Hf).
      revert f Hf. apply fieldOf_clean; [apply (Hentry k x Hin)|].
      apply (IH (k, x) Hin), (Hentry k x Hin).
Qed.

Section DistinctIdentifiers.

Variable getNode : option string -> option FileNode.
Variable createNodeId : string -> string.
Variable createContentDigest : string -> string.
Variable loadNodeContent : Node -> string + string.
Variable optimize : string -> string + string.
Variable node : Node.

Hypothesis createNodeId_injective :
  forall a b, createNodeId a = createNodeId b -> a = b.

Lemma markdown_ids_NoDup (obj : JsValue) (path : string) :
  wellKeyed obj = true ->
  NoDup (map (fun f : list string * string => createNodeId (path ^^ joinKeys (fst f)))
             (markdownFields obj)).
Proof.
  intros Hwell. destruct (markdownFields_wellKeyed obj Hwell) as [Hnodup Hclean].
  rewrite <- (map_map fst (fun ks => createNodeId (path ^^ joinKeys ks))).
  apply NoDup_map_NoDup_ForallPairs; [|exact Hnodup].
  intros a b Ha Hb Heq.
  apply in_map_iff in Ha. destruct Ha as (f & <- & Hf).
  apply in_map_iff in Hb. destruct Hb as (g & <- & Hg).
  apply createNodeId_injective, append_cancel_l in Heq.
  apply joinKeys_injective; auto.
  - exact (markdownFields_keys _ _ Hf).
  - exact (markdownFields_keys _ _ Hg).
Qed.

Lemma svg_ids :
  forall n,
    In n (createdNodes (svgEvents createNodeId createContentDigest
                                  loadNodeContent optimize node)) ->
    newNodeId n = createNodeId (node_id node).
Proof.
  unfold svgEvents. intros n.
  destruct (isSvg node); [|intros []].
  destruct (loadNodeContent node) as [e|c]; [intros []|].
  destruct (String.eqb c ""); [intros []|].
  destruct (optimize c); cbn; [intros [] | intros [<-|[]]; reflexivity].
Qed.

Lemma svg_nodes_at_most_one :
  List.length (createdNodes (svgEvents createNodeId createContentDigest
                                       loadNodeContent optimize node)) <= 1.
Proof.
  unfold svgEvents.
  destruct (isSvg node); [|cbn; lia].
  destruct (loadNodeContent node) as [e|c]; [cbn; lia|].
  destruct (String.eqb c ""); [cbn; lia|].
  destruct (optimize c); cbn; lia.
Qed.

(** X9.  When the identifier collaborator is injective and, in the node
    object, the keys of every object are pairwise different and free of
    underscores, all the nodes created by one call of the hook have different
    identifiers: the markdown nodes among themselves, and the inline SVG node
    from each of them. *)
Theorem created_ids_are_distinct :
  wellKeyed (JObj (nodeEntries node)) = true ->
  NoDup (map newNodeId
             (createdNodes
                (trace (onCreateNode getNode createNodeId createContentDigest
                                     loadNodeContent optimize (Some node) true)))).
Proof.
  intros Hwell. rewrite onCreateNode_run. unfold trace, fst, onCreateNodeEvents.
  destruct (createdNodes_slugEvents getNode node) as [Hslug _].
  destruct (parentMissing getNode node); [rewrite Hslug; constructor|].
  rewrite !createdNodes_app, Hslug, !map_app. cbn [map app].
  apply NoDup_app.
  - unfold markdownEvents. destruct (String.eqb _ _); [|constructor].
    rewrite createdNodes_fieldEvents, map_map. cbn [newNodeId markdownNode md_id].
    now apply markdown_ids_NoDup.
  - pose proof svg_nodes_at_most_one as Hone.
    destruct (createdNodes (svgEvents createNodeId createContentDigest
                                      loadNodeContent optimize node)) as [|n [|m r]];
      cbn in *; [constructor | repeat constructor; intros [] | lia].
  - intros i Hmd Hsvg.
    apply in_map_iff in Hsvg. destruct Hsvg as (n & <- & Hn).
    rewrite (svg_ids n Hn) in Hmd.
    unfold markdownEvents in Hmd. destruct (String.eqb _ _); [|contradiction].
    rewrite createdNodes_fieldEvents, map_map in Hmd.
    apply in_map_iff in Hmd. destruct Hmd as (f & Heq & Hf).
    cbn [newNodeId markdownNode md_id] in Heq.
    apply createNodeId_injective in Heq. rewrite append_assoc in Heq.
    symmetry in Heq. exact (@append_not_longer _ _ _ Heq).
Qed.

End DistinctIdentifiers.

Lemma created_ids_are_distinct_witness :
  let nodes :=
    createdNodes
      (trace (onCreateNode resolveAll identityDigest checksumDigest
                           loadCircle optimizeKeeps (Some richPage) true)) in
  map newNodeId nodes = ["n_mdIntro"; "n_sections_0_mdBody"; "n"]
  /\ NoDup (map newNodeId nodes).
Proof.
  intros nodes. split.
  - reflexivity.
  - apply (@created_ids_are_distinct resolveAll identityDigest checksumDigest
             loadCircle optimizeKeeps richPage).
    + intros a b H. exact H.
    + reflexivity.
Defined.

(* ------------------------------------------------------------------ *)
(** ** The remark plugin *)

Import Pathify.

Lemma Mdast_nested_ind (P : Mdast -> Prop)
      (Hnode : forall type url children,
          Forall P children -> P (MdastNode type url children)) :
  forall tree, P tree.
Proof.
  fix IH 1. intros [type url children]. apply Hnode.
  induction children as [|c r IHr]; constructor; [apply IH | exact IHr].
Qed.

Lemma visitAll_run {A B} (f : A -> M B) (events : A -> list Event) (g : A -> B)
      (xs : list A) :
  (forall x, In x xs -> f x = (events x, Normal (g x))) ->
  visitAll f xs = (flat_map events xs, Normal (map g xs)).
Proof.
  induction xs as [|x r IH]; intros H; [reflexivity|].
  cbn [visitAll flat_map map]. rewrite (H x (or_introl eq_refl)).
  unfold bind at 1. rewrite IH by (intros y Hy; apply H; now right).
  cbn. now rewrite app_nil_r.
Qed.

Lemma imageVisitor_run (prefix : string) (url : option string) :
  imageVisitor prefix url
  = (if noUrl url
     then [ConsoleWarn ["gatsby-relative-pathify-images: Image node missing URL"]]
     else [],
     Normal (pathified prefix url)).
Proof.
  unfold imageVisitor, pathified, noUrl. destruct url as [u|]; [|reflexivity].
  destruct (String.eqb u ""); [reflexivity|].
  destruct (startsWith u "."); reflexivity.
Qed.

(** The walk in closed form. *)
Lemma visit_run (prefix : string) (tree : Mdast) :
  visit "image" (imageVisitor prefix) tree
  = (missingUrlWarnings tree, Normal (mapImageUrls (pathified prefix) tree)).
Proof.
  induction tree as [type url children IH] using Mdast_nested_ind.
  cbn [visit mapImageUrls]. rewrite Forall_forall in IH.
  rewrite (visitAll_run _ missingUrlWarnings (mapImageUrls (pathified prefix)) _ IH).
  unfold missingUrlWarnings at 2. cbn [imageUrls].
  rewrite flat_map_app, flat_map_flat_map.
  destruct (String.eqb type "image").
  - rewrite imageVisitor_run. cbn. now rewrite !app_nil_r.
  - cbn. now rewrite !app_nil_r.
Qed.

Lemma withoutImageUrls_map (g : option string -> option string) (tree : Mdast) :
  withoutImageUrls (mapImageUrls g tree) = withoutImageUrls tree.
Proof.
  induction tree as [type url children IH] using Mdast_nested_ind.
  cbn [withoutImageUrls mapImageUrls]. rewrite map_map. f_equal.
  - destruct (String.eqb type "image"); reflexivity.
  - rewrite Forall_forall in IH. now apply map_ext_in.
Qed.

Lemma imageUrls_map (g : option string -> option string) (tree : Mdast) :
  imageUrls (mapImageUrls g tree) = map g (imageUrls tree).
Proof.
  induction tree as [type url children IH] using Mdast_nested_ind.
  cbn [imageUrls mapImageUrls]. rewrite map_app, flat_map_of_map. f_equal.
  - destruct (String.eqb type "image"); reflexivity.
  - rewrite Forall_forall in IH.
    rewrite (flat_map_pointwise _ (fun c => map g (imageUrls c)) _ IH).
    induction children as [|c r IHr]; [reflexivity|].
    cbn. rewrite map_app. f_equal. apply IHr. intros x Hx. apply IH. now right.
Qed.

Lemma mapImageUrls_fixed (g : option string -> option string) (tree : Mdast) :
  (forall url, In url (imageUrls tree) -> g url = url) ->
  mapImageUrls g tree = tree.
Proof.
  induction tree as [type url children IH] using Mdast_nested_ind.
  cbn [imageUrls mapImageUrls]. intros H. f_equal.
  - destruct (String.eqb type "image"); [|reflexivity].
    apply H. now left.
  - rewrite Forall_forall in IH. rewrite <- (map_id children) at 2.
    apply map_ext_in. intros c Hc. apply IH; [exact Hc|].
    intros u Hu. apply H, in_or_app. right. apply in_flat_map. now exists c.
Qed.

Lemma startsWith_prefixed (prefix u : string) :
  startsWith prefix "." = true -> startsWith (prefix ^^ u) "." = true.
Proof.
  unfold startsWith. destruct prefix as [|c r]; [discriminate|].
  change (String.prefix "." (String c r ^^ u))
    with (if Ascii.ascii_dec "." c then String.prefix "" (r ^^ u) else false).
  change (String.prefix "." (String c r))
    with (if Ascii.ascii_dec "." c then String.prefix "" r else false).
  destruct (Ascii.ascii_dec "." c); [|discriminate].
  intros _. now destruct (r ^^ u).
Qed.

(** X10.  With a non-empty prefix the plugin returns the tree it was given
    with nothing changed but the [url]s of image nodes: forgetting those, the
    two trees are equal.  The image [url]s are, in document order, kept when
    absent, empty or starting with a dot and prefixed otherwise, and one
    warning is logged for every image node whose [url] is absent or empty. *)
Theorem pathify_changes_image_urls_only (tree : Mdast) (prefix : string) :
  prefix <> "" ->
  let run := relativePathifyImages
               (Some tree) (Some {| relativePathPrefix := Some prefix |}) in
  exists tree',
    completion run = Normal (Some tree')
    /\ withoutImageUrls tree' = withoutImageUrls tree
    /\ imageUrls tree' = map (pathified prefix) (imageUrls tree)
    /\ trace run = missingUrlWarnings tree
    /\ List.length (trace run) = List.length (filter noUrl (imageUrls tree)).
Proof.
  intros Hprefix run. unfold run, relativePathifyImages. cbn [relativePathPrefix].
  apply String.eqb_neq in Hprefix. rewrite Hprefix, visit_run.
  exists (mapImageUrls (pathified prefix) tree). cbn.
  rewrite app_nil_r, withoutImageUrls_map, imageUrls_map. repeat split.
  unfold missingUrlWarnings.
  induction (imageUrls tree) as [|u r IH]; [reflexivity|].
  cbn. destruct (noUrl u); cbn; now rewrite IH.
Qed.

Lemma pathify_changes_image_urls_only_witness :
  exists tree',
    completion (relativePathifyImages
                  (Some sampleTree) (Some {| relativePathPrefix := Some "../" |}))
    = Normal (Some tree')
    /\ imageUrls tree' = [Some "../img/logo.png"; Some "./local.png"; None].
Proof.
  destruct (@pathify_changes_image_urls_only sampleTree "../" ltac:(discriminate))
    as (tree' & Hrun & _ & Hurls & _).
  exists tree'. split; [exact Hrun | exact Hurls].
Defined.

(** X11.  With a prefix that starts with a dot, every image node that has a
    non-empty [url] has a [url] starting with a dot once the plugin has run,
    and running the plugin again on its own result changes nothing: the same
    tree comes back, with the same warnings. *)
Theorem pathify_is_idempotent_for_dotted_prefix (tree : Mdast) (prefix : string) :
  startsWith prefix "." = true ->
  let options := Some {| relativePathPrefix := Some prefix |} in
  exists tree',
    relativePathifyImages (Some tree) options
    = (missingUrlWarnings tree, Normal (Some tree'))
    /\ (forall url, In url (imageUrls tree') -> noUrl url = false ->
                    isRelative url = true)
    /\ relativePathifyImages (Some tree') options
       = (missingUrlWarnings tree, Normal (Some tree')).
Proof.
  intros Hdot options. unfold options, relativePathifyImages. cbn [relativePathPrefix].
  assert (Hne : String.eqb prefix "" = false).
  { destruct prefix; [discriminate | reflexivity]. }
  assert (Hstable : forall url, pathified prefix (pathified prefix url)
                                = pathified prefix url).
  { intros [u|]; [|reflexivity]. unfold pathified.
    destruct (String.eqb u "") eqn:Hu; [now rewrite Hu|].
    destruct (startsWith u ".") eqn:Hs; [now rewrite Hu, Hs|].
    rewrite (@startsWith_prefixed prefix u Hdot).
    destruct (String.eqb (prefix ^^ u) ""); reflexivity. }
  assert (Hnone : forall url, noUrl (pathified prefix url) = noUrl url).
  { intros [u|]; [|reflexivity]. unfold pathified, noUrl.
    destruct (String.eqb u "") eqn:Hu; [exact Hu|].
    destruct (startsWith u "."); [exact Hu|].
    destruct prefix; [discriminate | reflexivity]. }
  exists (mapImageUrls (pathified prefix) tree). rewrite Hne, !visit_run.
  cbn. rewrite !app_nil_r.
  split; [reflexivity|]. split.
  - intros url Hin Hurl. rewrite imageUrls_map in Hin.
    apply in_map_iff in Hin. destruct Hin as ([u|] & <- & _); [|discriminate].
    unfold pathified in *. unfold noUrl in Hurl.
    destruct (String.eqb u "") eqn:Hu; [cbn in Hurl; congruence|].
    destruct (startsWith u ".") eqn:Hs; [exact Hs|].
    cbn. exact (@startsWith_prefixed prefix u Hdot).
  - rewrite (@mapImageUrls_fixed (pathified prefix)
                                  (mapImageUrls (pathified prefix) tree)).
    + f_equal. unfold missingUrlWarnings. rewrite imageUrls_map, flat_map_of_map.
      apply flat_map_pointwise. intros url _. now rewrite Hnone.
    + intros url Hin. rewrite imageUrls_map in Hin.
      apply in_map_iff in Hin. destruct Hin as (u & <- & _). apply Hstable.
Qed.

Lemma pathify_is_idempotent_for_dotted_prefix_witness :
  exists tree',
    relativePathifyImages (Some sampleTree) (Some {| relativePathPrefix := Some "../" |})
    = (missingUrlWarnings sampleTree, Normal (Some tree'))
    /\ relativePathifyImages (Some tree') (Some {| relativePathPrefix := Some "../" |})
       = (missingUrlWarnings sampleTree, Normal (Some tree')).
Proof.
  destruct (@pathify_is_idempotent_for_dotted_prefix sampleTree "../" eq_refl)
    as (tree' & Hfirst & _ & Hsecond).
  exists tree'. split; [exact Hfirst | exact Hsecond].
Defined.

(* ------------------------------------------------------------------ *)
(** ** The deployment context of the robots policy and of the browser *)

Import Context.

(** X12.  [resolveEnv] returns [CONTEXT] when the variable is set, also to
    the empty string, and [NODE_ENV] otherwise, and it warns exactly when what
    it returns is undefined or empty.  The context of the browser hooks is the
    same value unless [CONTEXT] is set to the empty string: then [resolveEnv]
    warns and returns the empty string, while the browser takes [NODE_ENV]. *)
Theorem robots_and_browser_contexts (env : ProcessEnv) :
  completion (resolveEnv env) = Normal (robotsCONTEXT env)
  /\ (trace (resolveEnv env) <> [] <-> unset (robotsCONTEXT env) = true)
  /\ (CONTEXT env <> Some "" -> completion (resolveEnv env) = Normal (browserCtx env))
  /\ (CONTEXT env = Some "" ->
      resolveEnv env
      = ([ConsoleWarn ["CONTEXT environment variable not set, using NODE_ENV"]],
         Normal (Some ""))
      /\ browserCtx env = NODE_ENV env).
Proof.
  assert (Hrun : resolveEnv env
                 = (if unset (robotsCONTEXT env)
                    then [ConsoleWarn
                            ["CONTEXT environment variable not set, using NODE_ENV"]]
                    else [],
                    Normal (robotsCONTEXT env))).
  { unfold resolveEnv. destruct (unset (robotsCONTEXT env)); reflexivity. }
  rewrite Hrun. unfold completion, trace, fst, snd. repeat apply conj.
  - reflexivity.
  - intros H. destruct (unset (robotsCONTEXT env)); [reflexivity | now elim H].
  - intros ->. discriminate.
  - intros Hctx. f_equal. unfold robotsCONTEXT, browserCtx, unset.
    destruct (CONTEXT env) as [context|]; [|reflexivity].
    destruct (String.eqb_spec context "") as [->|_]; [now elim Hctx | reflexivity].
  - intros Hctx. unfold robotsCONTEXT, browserCtx, unset. rewrite Hctx.
    split; reflexivity.
Qed.

Lemma robots_and_browser_contexts_witness :
  let env := {| NODE_ENV := Some "production"; URL := None; CONTEXT := Some "" |} in
  resolveEnv env
  = ([ConsoleWarn ["CONTEXT environment variable not set, using NODE_ENV"]],
     Normal (Some ""))
  /\ browserCtx env = Some "production".
Proof.
  intros env.
  apply (proj2 (proj2 (proj2 (robots_and_browser_contexts env)))). reflexivity.
Defined.

(* ------------------------------------------------------------------ *)
(** ** Which items get a page of their own *)

(** X13.  Whatever the queries answer, a page with the media-page template
    is created for items of the types [announcements] and [blog] only, under
    [/media/{type}/{slug}]: the news phase creates listing pages and nothing
    else, so a news item never gets a page of its own. *)
Theorem item_pages_only_for_announcements_and_blog
        (graphql : Query -> QueryResult) (p : Page) :
  In (CreatePage p) (trace (createPages (Some graphql) true)) ->
  page_component p = MediaPageTemplate ->
  exists mediaType slug,
    (mediaType = "announcements" \/ mediaType = "blog")
    /\ page_path p = "/media/" ^^ mediaType ^^ "/" ^^ slug
    /\ contextGet "mediaType" (page_context p) = Some (JStr mediaType)
    /\ contextGet "slug" (page_context p) = Some (JStr slug).
Proof.
  intros H. revert H.
  apply (@createPages_pages graphql
           (fun q => page_component q = MediaPageTemplate ->
                     exists mediaType slug,
                       (mediaType = "announcements" \/ mediaType = "blog")
                       /\ page_path q = "/media/" ^^ mediaType ^^ "/" ^^ slug
                       /\ contextGet "mediaType" (page_context q)
                          = Some (JStr mediaType)
                       /\ contextGet "slug" (page_context q) = Some (JStr slug)));
    try (intros; discriminate).
  intros mediaType title item Hentry _.
  exists mediaType, (fields_slug (mr_fields item)). repeat split.
  destruct Hentry as [[= <- _] | [[= <- _] | []]]; auto.
Qed.

Lemma item_pages_only_for_announcements_and_blog_witness :
  exists mediaType slug,
    (mediaType = "announcements" \/ mediaType = "blog")
    /\ page_path (mediaItemPage "blog" (blogItem 1)) = "/media/" ^^ mediaType ^^ "/" ^^ slug
    /\ contextGet "mediaType" (page_context (mediaItemPage "blog" (blogItem 1)))
       = Some (JStr mediaType)
    /\ contextGet "slug" (page_context (mediaItemPage "blog" (blogItem 1)))
       = Some (JStr slug).
Proof.
  apply (@item_pages_only_for_announcements_and_blog
           (siteGraphql (failure "down") (answer twelveBlogItems)
                        (answer twelveBlogItems))
           (mediaItemPage "blog" (blogItem 1))).
  - cbv. do 5 right. left. reflexivity.
  - reflexivity.
Defined.
